(** * vn-kanji-sheets: the two batch scripts under [src/data]

    A shallow embedding of [auto-sv-lookup.py] (dictionary loader and
    enricher) and [split-kanji.py] (splitter), and the properties their
    specification states about them.

    Python values are the values [json.load] produces.  A [str] is its
    sequence of Unicode code points; a JSON object is an association list in
    insertion order (the order [json.dump] writes it back); a Python [dict]
    used as a lookup table is a [gmap].  Exceptions are results of an error
    monad.  Numbers are the integer literals; floating point literals are
    outside the model.  The keys of an object are distinct after
    [json.load], and every value is a tree of its own (no two records are
    the same object), so that the in-place updates of the scripts are
    updates of a value passed along.  What the scripts print, and the pause
    between two records, are left out. *)

From Stdlib Require Import ZArith NArith Ascii String.
From stdpp Require Import gmap list sorting.

#[local] Set Warnings "-register-all".
Local Open Scope list_scope.
Local Open Scope N_scope.

(** ** Python values and primitives *)

Module Py.

(** A [str]: its code points. *)
Definition pystr : Type := list N.

(** A literal of Basic Latin characters. *)
Definition str (s : string) : pystr := N_of_ascii <$> list_ascii_of_string s.
Arguments str : simpl never.

Inductive json : Type :=
| JNull
| JBool (b : bool)
| JInt (z : Z)
| JStr (s : pystr)
| JArr (items : list json)
| JObj (fields : list (pystr * json)).

Inductive pyerr : Type :=
| TypeError | AttributeError | KeyError | IndexError | UnicodeDecodeError.

Inductive exc (A : Type) : Type :=
| Ok (a : A)
| Raise (e : pyerr).
Arguments Ok {A} a.
Arguments Raise {A} e.

#[export] Instance exc_ret : MRet exc := fun _ a => Ok a.
#[export] Instance exc_bind : MBind exc := fun _ _ f m =>
  match m with
  | Ok a => f a
  | Raise e => Raise e
  end.

(** [bool(v)]. *)
Definition truthy (v : json) : bool :=
  match v with
  | JNull => false
  | JBool b => b
  | JInt z => negb (z =? 0)%Z
  | JStr s => match s with [] => false | _ => true end
  | JArr l => match l with [] => false | _ => true end
  | JObj o => match o with [] => false | _ => true end
  end.

Definition is_none (v : json) : bool :=
  match v with JNull => true | _ => false end.

(** [len(v)]. *)
Definition py_len (v : json) : exc nat :=
  match v with
  | JStr s => Ok (length s)
  | JArr l => Ok (length l)
  | JObj o => Ok (length o)
  | _ => Raise TypeError
  end.

(** [v[i]] for a literal index [i]; a JSON object has string keys only. *)
Definition py_index (v : json) (i : nat) : exc json :=
  match v with
  | JStr s => match s !! i with Some c => Ok (JStr [c]) | None => Raise IndexError end
  | JArr l => match l !! i with Some x => Ok x | None => Raise IndexError end
  | JObj _ => Raise KeyError
  | _ => Raise TypeError
  end.

(** The sequence [for x in v] runs through. *)
Definition py_iter (v : json) : exc (list json) :=
  match v with
  | JStr s => Ok ((fun c => JStr [c]) <$> s)
  | JArr l => Ok l
  | JObj o => Ok ((fun kv => JStr kv.1) <$> o)
  | _ => Raise TypeError
  end.

Definition str_eqb (s t : pystr) : bool := bool_decide (s = t).

(** [o.get(k)] on the fields of an object. *)
Fixpoint dict_get (o : list (pystr * json)) (k : pystr) : option json :=
  match o with
  | [] => None
  | (k', v) :: o' => if str_eqb k' k then Some v else dict_get o' k
  end.

(** [o[k] = v]: in place when the key exists, else a new last key. *)
Fixpoint dict_set (o : list (pystr * json)) (k : pystr) (v : json)
  : list (pystr * json) :=
  match o with
  | [] => [(k, v)]
  | (k', v') :: o' =>
      if str_eqb k' k then (k', v) :: o' else (k', v') :: dict_set o' k v
  end.

(** [v.get(k, dflt)]. *)
Definition py_get (v : json) (k : pystr) (dflt : json) : exc json :=
  match v with
  | JObj o => Ok (default dflt (dict_get o k))
  | _ => Raise AttributeError
  end.

(** [str.isspace] on one code point: the code points of bidirectional type
    WS, B or S, or of category Zs. *)
Definition is_space (c : N) : bool :=
  (9 <=? c) && (c <=? 13) || (28 <=? c) && (c <=? 32)
  || (c =? 133) || (c =? 160) || (c =? 5760)
  || (8192 <=? c) && (c <=? 8202)
  || (c =? 8232) || (c =? 8233) || (c =? 8239) || (c =? 8287)
  || (c =? 12288).

Fixpoint lstrip (s : pystr) : pystr :=
  match s with
  | c :: s' => if is_space c then lstrip s' else s
  | [] => []
  end.

Definition rstrip (s : pystr) : pystr := reverse (lstrip (reverse s)).

(** [s.strip()]. *)
Definition strip (s : pystr) : pystr := rstrip (lstrip s).

Definition py_strip (v : json) : exc pystr :=
  match v with
  | JStr s => Ok (strip s)
  | _ => Raise AttributeError
  end.

(** [sep.join(parts)]. *)
Fixpoint join (sep : pystr) (parts : list pystr) : pystr :=
  match parts with
  | [] => []
  | [p] => p
  | p :: rest => p ++ sep ++ join sep rest
  end.

(** Comparison of two [str]: lexicographic on code points. *)
Fixpoint str_cmp (s t : pystr) : comparison :=
  match s, t with
  | [], [] => Eq
  | [], _ :: _ => Lt
  | _ :: _, [] => Gt
  | a :: s', b :: t' =>
      match a ?= b with
      | Eq => str_cmp s' t'
      | o => o
      end
  end.

Definition str_le (s t : pystr) : Prop := str_cmp s t <> Gt.

#[export] Instance str_le_dec s t : Decision (str_le s t).
Proof. unfold str_le. destruct (str_cmp s t); [left | left | right]; congruence. Defined.

(** [sorted(l)] on a list of [str]: a stable merge sort. *)
Definition sorted (l : list pystr) : list pystr := merge_sort str_le l.

(** The keys of a [dict]: the hashable values, where [True == 1] and
    [False == 0] are the same key. *)
Inductive pykey : Type :=
| KNone
| KInt (z : Z)
| KStr (s : pystr).

#[export] Instance pykey_eq_dec : EqDecision pykey.
Proof. solve_decision. Defined.

#[export] Instance pykey_countable : Countable pykey.
Proof.
  refine (inj_countable'
            (fun k => match k with
                      | KNone => inl ()
                      | KInt z => inr (inl z)
                      | KStr s => inr (inr s)
                      end)
            (fun x => match x with
                      | inl _ => KNone
                      | inr (inl z) => KInt z
                      | inr (inr s) => KStr s
                      end) _).
  intros []; reflexivity.
Defined.

(** [hash(v)], which a list or a dict refuses. *)
Definition hash_key (v : json) : exc pykey :=
  match v with
  | JNull => Ok KNone
  | JBool b => Ok (KInt (if b then 1 else 0))
  | JInt z => Ok (KInt z)
  | JStr s => Ok (KStr s)
  | JArr _ | JObj _ => Raise TypeError
  end.

(** A left fold whose step may raise: a [for] loop over [l]. *)
Fixpoint for_each {A B : Type} (f : A -> B -> exc A) (a : A) (l : list B)
  : exc A :=
  match l with
  | [] => Ok a
  | x :: l' => a' ← f a x; for_each f a' l'
  end.

(** What the interpreter and the Unicode database decide: the full
    uppercase mapping of a code point, [str.lower], and the order in which
    [list(set(l))] yields the distinct elements of [l]. *)
Class Runtime : Type := {
  to_upper_full : N -> list N;
  lower : pystr -> pystr;
  list_of_set : list pystr -> list pystr;
  list_of_set_NoDup : forall l, NoDup (list_of_set l);
  list_of_set_elem : forall l x, x ∈ list_of_set l <-> x ∈ l
}.

(** [s.upper()]: code point by code point. *)
Definition upper `{Runtime} (s : pystr) : pystr := s ≫= to_upper_full.

(** [v.lower()]. *)
Definition py_lower `{Runtime} (v : json) : exc pystr :=
  match v with
  | JStr s => Ok (lower s)
  | _ => Raise AttributeError
  end.

(** A file a script opens for reading: it is not there
    ([FileNotFoundError]); or it is text that is not JSON
    ([json.JSONDecodeError]); or its bytes are not UTF-8, so that reading
    it raises [UnicodeDecodeError]; or it parses. *)
Inductive file : Type :=
| Missing
| Unparseable
| Undecodable
| Parsed (document : json).

(** The files by name, and whether a document can be written under a
    name: the file opens for writing and [json.dump] runs to its end. *)
Record filesystem : Type := {
  content : string -> file;
  writable : string -> bool
}.

(** How a run ends: the function returns, [sys.exit] is called, or an
    exception nobody catches ends the process. *)

Inductive status : Type :=
| Returned
| SysExit (code : Z)
| Uncaught (e : pyerr).

End Py.

(** ** [auto-sv-lookup.py] *)

Module AutoSvLookup.
Import Py.

Definition KANJI_INPUT_FILE : string := "kanji-org.json".
Definition YOMICHAN_DICTIONARY_FILE : string := "kanji_bank_1.json".
Definition OUTPUT_FILE : string := "kanji-with-sv-meanings-final.json".

(** A run: the files the run went to open for reading, in order, the
    documents written, how the run ended, and the two counters of the
    final report. *)
Record outcome : Type := {
  opened : list string;
  written : list (string * json);
  ended : status;
  report : option (nat * nat)
}.

Section with_runtime.
Context `{Runtime}.

(** The body of [for definition in definitions]. *)
Definition add_reading (readings : list pystr) (definition : json)
  : exc (list pystr) :=
  match definition with
  | JArr (raw_reading :: _) =>
      if truthy raw_reading
      then (stripped ← py_strip raw_reading; Ok (readings ++ [stripped]))
      else Ok readings
  | _ => Ok readings
  end.

(** The first half of the body of [for entry in yomichan_data]: nothing
    for an entry the loop passes over, else [character] and
    [list(unique_readings)]. *)
Definition entry_readings (entry : json) : exc (option (json * list pystr)) :=
  n ← py_len entry;
  if (n <? 2)%nat then Ok None
  else
    character ← py_index entry 0;
    definitions ← py_index entry 1;
    defs ← py_iter definitions;
    readings ← for_each add_reading [] defs;
    Ok (Some (character, list_of_set readings)).

(** The whole body: [if unique_readings: dictionary[character] = ...]. *)
Definition add_entry (dictionary : gmap pykey (list pystr)) (entry : json)
  : exc (gmap pykey (list pystr)) :=
  r ← entry_readings entry;
  match r with
  | Some (character, (_ :: _) as unique_readings) =>
      key ← hash_key character;
      Ok (<[key := unique_readings]> dictionary)
  | _ => Ok dictionary
  end.

(** The preprocessing loop of [load_dictionary], from the parsed file. *)
Definition preprocess (yomichan_data : json) : exc (gmap pykey (list pystr)) :=
  entries ← py_iter yomichan_data;
  for_each add_entry ∅ entries.

(** [load_dictionary]: the mapping, or the exit status of [sys.exit]. *)
Definition load_dictionary (fs : filesystem) : Z + gmap pykey (list pystr) :=
  match content fs YOMICHAN_DICTIONARY_FILE with
  | Missing => inl 1%Z
  | Unparseable => inl 1%Z
  | Undecodable => inl 1%Z
  | Parsed yomichan_data =>
      match preprocess yomichan_data with
      | Ok dictionary => inr dictionary
      | Raise _ => inl 1%Z
      end
  end.

Definition get_han_viet_reading (character : json)
    (dictionary : gmap pykey (list pystr)) : exc (option pystr) :=
  key ← hash_key character;
  match dictionary !! key with
  | Some ((_ :: _) as readings) =>
      Ok (Some (join (str ", ") (upper <$> sorted readings)))
  | _ => Ok None
  end.

(** The body of [for i, kanji_entry in enumerate(kanji_list)], on the
    entry and the two counters. *)
Definition process_entry (hvd_dictionary : gmap pykey (list pystr))
    (kanji_entry : json) (modified_count skipped_count : nat)
  : exc (json * nat * nat) :=
  character ← py_get kanji_entry (str "character") JNull;
  current_meaning ← py_get kanji_entry (str "meaning") JNull;
  if truthy character && negb (is_none current_meaning) then
    sv_meaning ← get_han_viet_reading character hvd_dictionary;
    match sv_meaning with
    | Some ((_ :: _) as sv) =>
        stripped ← py_strip current_meaning;
        match kanji_entry, current_meaning with
        | JObj fields, JStr meaning =>
            let new_meaning :=
              match stripped with
              | _ :: _ => sv ++ str ", " ++ meaning
              | [] => sv
              end in
            Ok (JObj (dict_set fields (str "meaning") (JStr new_meaning)),
                S modified_count, skipped_count)
        | _, _ => Raise AttributeError
        end
    | _ => Ok (kanji_entry, modified_count, S skipped_count)
    end
  else Ok (kanji_entry, modified_count, skipped_count).

(** The loop, on the entries still to visit: the entries as they are
    after the loop, and the counters. *)
Fixpoint process_entries (hvd_dictionary : gmap pykey (list pystr))
    (entries : list json) (modified_count skipped_count : nat)
  : exc (list json * nat * nat) :=
  match entries with
  | [] => Ok ([], modified_count, skipped_count)
  | kanji_entry :: rest =>
      '(entry', m, s) ← process_entry hvd_dictionary kanji_entry
                          modified_count skipped_count;
      '(rest', m', s') ← process_entries hvd_dictionary rest m s;
      Ok (entry' :: rest', m', s')
  end.

(** Steps 2 and 3 of [process_kanji_file] up to [json.dump]: the document
    handed to it, and the counters. *)
Definition enrich (hvd_dictionary : gmap pykey (list pystr)) (data : json)
  : exc (json * nat * nat) :=
  kanji_list ← py_get data (str "kanji") (JArr []);
  total_kanji ← py_len kanji_list;
  entries ← py_iter kanji_list;
  '(entries', modified_count, skipped_count) ←
    process_entries hvd_dictionary entries 0%nat 0%nat;
  let kanji_list' :=
    match kanji_list with
    | JArr _ => JArr entries'
    | other => other
    end in
  match data with
  | JObj fields =>
      Ok (JObj (dict_set fields (str "kanji") kanji_list'),
          modified_count, skipped_count)
  | _ => Raise AttributeError
  end.

Definition process_kanji_file (fs : filesystem) : outcome :=
  match load_dictionary fs with
  | inl code =>
      {| opened := [YOMICHAN_DICTIONARY_FILE]; written := [];
         ended := SysExit code; report := None |}
  | inr hvd_dictionary =>
      let opened := [YOMICHAN_DICTIONARY_FILE; KANJI_INPUT_FILE] in
      match content fs KANJI_INPUT_FILE with
      | Missing | Unparseable | Undecodable =>
          {| opened := opened; written := []; ended := Returned;
             report := None |}
      | Parsed data =>
          match enrich hvd_dictionary data with
          | Raise e =>
              {| opened := opened; written := []; ended := Uncaught e;
                 report := None |}
          | Ok (data', modified_count, skipped_count) =>
              if writable fs OUTPUT_FILE
              then {| opened := opened; written := [(OUTPUT_FILE, data')];
                      ended := Returned;
                      report := Some (modified_count, skipped_count) |}
              else {| opened := opened; written := []; ended := Returned;
                      report := None |}
          end
      end
  end.

End with_runtime.
End AutoSvLookup.

(** ** [split-kanji.py] *)

Module SplitKanji.
Import Py.

(** A run: the files opened for reading, the documents written, in order,
    and how the run ended. *)
Record outcome : Type := {
  opened : list string;
  written : list (string * json);
  ended : status
}.

Definition jlpt_groups_init : gmap pystr (list json) :=
  <[str "jlptn1" := []]> (<[str "jlptn2" := []]> (<[str "jlptn3" := []]>
    (<[str "jlptn4" := []]> (<[str "jlptn5" := []]> ∅)))).

Definition output_filenames : list (pystr * string) :=
  [ (str "jlptn5", "kanji-jlpt-n5.json"%string);
    (str "jlptn4", "kanji-jlpt-n4.json"%string);
    (str "jlptn3", "kanji-jlpt-n3.json"%string);
    (str "jlptn2", "kanji-jlpt-n2.json"%string);
    (str "jlptn1", "kanji-jlpt-n1.json"%string) ].

Section with_runtime.
Context `{Runtime}.

(** [kanji.get('category', '').lower()]. *)
Definition category_key (kanji : json) : exc pystr :=
  c ← py_get kanji (str "category") (JStr []);
  py_lower c.

(** The body of [for kanji in kanji_list]. *)
Definition add_kanji (jlpt_groups : gmap pystr (list json)) (kanji : json)
  : exc (gmap pystr (list json)) :=
  category ← category_key kanji;
  match jlpt_groups !! category with
  | Some group => Ok (<[category := group ++ [kanji]]> jlpt_groups)
  | None => Ok jlpt_groups
  end.

(** Step 2: the groups after the loop. *)
Definition group_by_category (kanji_list : json)
  : exc (gmap pystr (list json)) :=
  kanjis ← py_iter kanji_list;
  for_each add_kanji jlpt_groups_init kanjis.

(** Step 3: the files the last loop writes; one that cannot be written is
    reported and passed over. *)
Definition write_groups (fs : filesystem) (jlpt_groups : gmap pystr (list json))
  : list (string * json) :=
  omap (fun '(category_key, output_filename) =>
          if writable fs output_filename
          then Some (output_filename,
                     JObj [(str "kanji",
                            JArr (default [] (jlpt_groups !! category_key)))])
          else None)
       output_filenames.

Definition split_kanji_by_jlpt_level (fs : filesystem) (input_filename : string)
  : outcome :=
  match content fs input_filename with
  | Missing | Unparseable =>
      {| opened := [input_filename]; written := []; ended := Returned |}
  | Undecodable =>
      {| opened := [input_filename]; written := [];
         ended := Uncaught UnicodeDecodeError |}
  | Parsed data =>
      match py_get data (str "kanji") (JArr []) with
      | Raise e =>
          {| opened := [input_filename]; written := []; ended := Uncaught e |}
      | Ok kanji_list =>
          if negb (truthy kanji_list)
          then {| opened := [input_filename]; written := [];
                  ended := Returned |}
          else
            match group_by_category kanji_list with
            | Raise e =>
                {| opened := [input_filename]; written := [];
                   ended := Uncaught e |}
            | Ok jlpt_groups =>
                {| opened := [input_filename];
                   written := write_groups fs jlpt_groups;
                   ended := Returned |}
            end
      end
  end.

End with_runtime.
End SplitKanji.

(** ** An interpreter for the examples *)

Module Examples.
Import Py.

(** The case mappings of the Unicode database on Basic Latin; the examples
    below apply them to these letters and to characters without case only.
    [list(set(l))] yields first occurrences in order. *)
Definition basic_latin_upper (c : N) : list N :=
  if (97 <=? c) && (c <=? 122) then [c - 32] else [c].

Definition basic_latin_lower (s : pystr) : pystr :=
  (fun c => if (65 <=? c) && (c <=? 90) then c + 32 else c) <$> s.

#[export] Instance basic_latin : Runtime := {|
  to_upper_full := basic_latin_upper;
  lower := basic_latin_lower;
  list_of_set := remove_dups;
  list_of_set_NoDup := NoDup_remove_dups;
  list_of_set_elem := fun l x => elem_of_remove_dups l x
|}.

(** 水, 火, 龍. *)
Definition water : pystr := [27700].
Definition fire : pystr := [28779].
Definition dragon : pystr := [40845].
(** THỦY, HỎA; Ủ (U+1EE6) and Ỏ (U+1ECE) are capital letters, which
    [upper] leaves as they are. *)
Definition THUY : pystr := [84; 72; 7910; 89].
Definition HOA : pystr := [72; 7886; 65].

(** A second interpreter, whose sets come out in the opposite order. *)
Definition reversed_sets : Runtime := {|
  to_upper_full := basic_latin_upper;
  lower := basic_latin_lower;
  list_of_set := fun l => remove_dups (reverse l);
  list_of_set_NoDup := fun l => NoDup_remove_dups (reverse l);
  list_of_set_elem := fun l x =>
    iff_trans (elem_of_remove_dups (reverse l) x) (elem_of_reverse x l)
|}.

Definition record (character meaning : pystr) : json :=
  JObj [(str "character", JStr character); (str "meaning", JStr meaning)].

Definition level (character category : pystr) : json :=
  JObj [(str "character", JStr character); (str "category", JStr category)].

(** The files of [files], with one name that cannot be written. *)
Definition read_only (name : string) (fs : filesystem) : filesystem :=
  {| content := content fs;
     writable := fun name' => negb (String.eqb name' name) |}.

Definition files (dictionary input : json) : filesystem :=
  {| content := fun name =>
       if String.eqb name AutoSvLookup.YOMICHAN_DICTIONARY_FILE
       then Parsed dictionary
       else if String.eqb name AutoSvLookup.KANJI_INPUT_FILE
       then Parsed input
       else Missing;
     writable := fun _ => true |}.

End Examples.

(** ** The vocabulary of the properties *)

Module Properties.
Import Py AutoSvLookup SplitKanji.

(** Whitespace-trimmed: stripping changes nothing. *)
Definition trimmed (s : pystr) : Prop := strip s = s.

(** The formatted reading in the specification's words: the readings, each
    upper-cased, sorted ascending on the upper-cased form, joined. *)
Definition formatted_as_specified `{Runtime} (readings : list pystr) : pystr :=
  join (str ", ") (sorted (upper <$> readings)).

(** The stored lists are never empty, hold no reading twice, and hold
    trimmed readings only. *)
Definition well_formed (dictionary : gmap pykey (list pystr)) : Prop :=
  forall key readings, dictionary !! key = Some readings ->
    readings <> [] /\ NoDup readings /\ Forall trimmed readings.

(** What a turn of the loader's loop stores: a key and its list, or
    nothing. *)
Definition stores `{Runtime} (entry : json) : exc (option (pykey * list pystr)) :=
  r ← entry_readings entry;
  match r with
  | Some (character, (_ :: _) as unique_readings) =>
      key ← hash_key character;
      Ok (Some (key, unique_readings))
  | _ => Ok None
  end.

(** The turn ends without an exception. *)
Definition accepted `{Runtime} (entry : json) : Prop :=
  exists update, stores entry = Ok update.

(** The turn ends without an exception and stores nothing under [key]. *)
Definition leaves `{Runtime} (key : pykey) (entry : json) : Prop :=
  exists update, stores entry = Ok update /\
    forall readings, update <> Some (key, readings).

(** A KanjiRecord: an object whose [character] and [meaning], each of
    which may be missing or null, are strings. *)
Definition kanji_record (kanji_entry : json) : bool :=
  match kanji_entry with
  | JObj fields =>
      match dict_get fields (str "character") with
      | None | Some JNull | Some (JStr _) => true
      | Some _ => false
      end
      && match dict_get fields (str "meaning") with
         | None | Some JNull | Some (JStr _) => true
         | Some _ => false
         end
  | _ => false
  end.

(** A record with a [character] that is present and not falsy and a
    [meaning] that is present and not null. *)
Definition eligible (kanji_entry : json) : bool :=
  match kanji_entry with
  | JObj fields =>
      match dict_get fields (str "character"), dict_get fields (str "meaning") with
      | Some character, Some meaning => truthy character && negb (is_none meaning)
      | _, _ => false
      end
  | _ => false
  end.

(** A record with its [meaning], when it has one, blanked. *)
Definition blank_meaning (kanji_entry : json) : json :=
  match kanji_entry with
  | JObj fields =>
      match dict_get fields (str "meaning") with
      | Some _ => JObj (dict_set fields (str "meaning") JNull)
      | None => kanji_entry
      end
  | _ => kanji_entry
  end.

(** A document with the [meaning] of every record of its [kanji] array
    blanked: what of the document lies outside [kanji[*].meaning]. *)
Definition outside_meaning (data : json) : json :=
  match data with
  | JObj fields =>
      match dict_get fields (str "kanji") with
      | Some (JArr entries) =>
          JObj (dict_set fields (str "kanji") (JArr (blank_meaning <$> entries)))
      | _ => data
      end
  | _ => data
  end.

(** The record's [category] matches [key] case-insensitively: the record
    is an object whose [category] field is a string that, put in lower
    case, is [key]; a record without the field counts as one with the
    empty category. *)
Definition matches `{Runtime} (key : pystr) (kanji : json) : bool :=
  match kanji with
  | JObj fields =>
      match dict_get fields (str "category") with
      | Some (JStr category) => str_eqb (lower category) key
      | Some _ => false
      | None => str_eqb (lower []) key
      end
  | _ => false
  end.

(** A record of the splitter: an object whose [category], when it has one,
    is a string. *)
Definition categorised (kanji : json) : bool :=
  match kanji with
  | JObj fields =>
      match dict_get fields (str "category") with
      | None | Some (JStr _) => true
      | Some _ => false
      end
  | _ => false
  end.

(** The output file of a category key for the records [kanji_list]. *)
Definition level_file `{Runtime} (kanji_list : list json)
    (output : pystr * string) : string * json :=
  (output.2,
   JObj [(str "kanji",
          JArr (filter (fun kanji => matches output.1 kanji = true) kanji_list))]).



(** A record the lookup has nothing for: an object whose [character], if
    it is truthy, can be hashed and is not a key of the mapping. *)
Definition misses (hvd : gmap pykey (list pystr)) (kanji_entry : json) : Prop :=
  exists fields, kanji_entry = JObj fields /\
    forall character, dict_get fields (str "character") = Some character ->
      truthy character = true ->
      exists key, hash_key character = Ok key /\ hvd !! key = None.

(** A record put through the body of the enricher's loop [n] times, as
    when the output of a run is the input of the next. *)
Fixpoint rerun `{Runtime} (hvd : gmap pykey (list pystr)) (n : nat)
    (kanji_entry : json) : exc json :=
  match n with
  | O => Ok kanji_entry
  | S n' =>
      '(kanji_entry', _, _) ← process_entry hvd kanji_entry 0%nat 0%nat;
      rerun hvd n' kanji_entry'
  end.

(** Two mappings with the same keys and, under each key, the same
    readings in some order. *)
Definition same_readings (d1 d2 : gmap pykey (list pystr)) : Prop :=
  forall key, option_Forall2 Permutation (d1 !! key) (d2 !! key).

End Properties.

(** ** Facts about the primitives *)

Import Py.

Section dict_facts.
Implicit Types (o : list (pystr * json)) (k : pystr) (v : json).

Lemma str_eqb_refl k : str_eqb k k = true.
Proof. unfold str_eqb. by apply bool_decide_eq_true. Qed.

Lemma dict_get_set o k v : dict_get (dict_set o k v) k = Some v.
Proof.
  induction o as [|[k' v'] o IH]; simpl.
  - by rewrite str_eqb_refl.
  - destruct (str_eqb k' k) eqn:E; simpl; by rewrite E.
Qed.

Lemma dict_set_set o k v v' : dict_set (dict_set o k v) k v' = dict_set o k v'.
Proof.
  induction o as [|[k' w] o IH]; simpl.
  - by rewrite str_eqb_refl.
  - destruct (str_eqb k' k) eqn:E; simpl; rewrite E; [done | by rewrite IH].
Qed.

Lemma dict_set_same o k v : dict_get o k = Some v -> dict_set o k v = o.
Proof.
  induction o as [|[k' w] o IH]; simpl; [done |].
  destruct (str_eqb k' k); intros Hv; [congruence | by rewrite IH].
Qed.

Lemma dict_set_fresh o k v : dict_get o k = None -> dict_set o k v = o ++ [(k, v)].
Proof.
  induction o as [|[k' w] o IH]; simpl; [done |].
  destruct (str_eqb k' k); intros Hv; [done | by rewrite IH].
Qed.

End dict_facts.

Section order_facts.
Implicit Types s t u : pystr.

Lemma str_cmp_refl s : str_cmp s s = Eq.
Proof. induction s as [|a s IH]; simpl; [done |]. by rewrite N.compare_refl. Qed.

Lemma str_cmp_antisym s t : str_cmp t s = CompOpp (str_cmp s t).
Proof.
  revert t; induction s as [|a s IH]; intros [|b t]; simpl; try done.
  rewrite (N.compare_antisym a b).
  destruct (a ?= b); simpl; [apply IH | done | done].
Qed.

Lemma str_cmp_eq s t : str_cmp s t = Eq -> s = t.
Proof.
  revert t; induction s as [|a s IH]; intros [|b t]; simpl; try done.
  destruct (a ?= b) eqn:E; try done.
  apply N.compare_eq in E. intros Hst. f_equal; [done | by apply IH].
Qed.

Lemma str_cmp_trans_lt s t u :
  str_cmp s t <> Gt -> str_cmp t u <> Gt -> str_cmp s u <> Gt.
Proof.
  revert t u; induction s as [|a s IH]; intros [|b t] [|c u]; simpl; try done.
  destruct (N.compare_spec a b) as [->|Hab|Hab]; [| |done].
  - destruct (N.compare_spec b c) as [->|Hbc|Hbc]; [apply IH | done | done].
  - destruct (N.compare_spec b c) as [->|Hbc|Hbc]; [| |done]; intros _ _.
    + by rewrite (proj2 (N.compare_lt_iff a c) Hab).
    + by rewrite (proj2 (N.compare_lt_iff a c) (N.lt_trans _ _ _ Hab Hbc)).
Qed.

#[export] Instance str_le_total : Total str_le.
Proof.
  intros s t. unfold str_le. rewrite (str_cmp_antisym s t).
  destruct (str_cmp s t); simpl; [left | left | right]; congruence.
Qed.

#[export] Instance str_le_trans : Transitive str_le.
Proof. intros s t u. apply str_cmp_trans_lt. Qed.

#[export] Instance str_le_antisym : AntiSymm (=) str_le.
Proof.
  intros s t Hst Hts. unfold str_le in *. rewrite (str_cmp_antisym s t) in Hts.
  destruct (str_cmp s t) eqn:E; simpl in *; try done. by apply str_cmp_eq.
Qed.

(** [sorted] yields the ascending rearrangement of its argument. *)
Lemma sorted_StronglySorted (l : list pystr) : StronglySorted str_le (sorted l).
Proof. apply StronglySorted_merge_sort; apply _. Qed.

Lemma sorted_Permutation (l : list pystr) : sorted l ≡ₚ l.
Proof. apply merge_sort_Permutation. Qed.

(** The result does not depend on the order of the argument. *)
Lemma sorted_order_irrelevant (l l' : list pystr) : l ≡ₚ l' -> sorted l = sorted l'.
Proof.
  intros Hp. apply (StronglySorted_unique str_le); try apply sorted_StronglySorted.
  by rewrite !sorted_Permutation.
Qed.

End order_facts.

Section strip_facts.
Implicit Types s t : pystr.

Lemma lstrip_length s : (length (lstrip s) <= length s)%nat.
Proof. induction s as [|c s IH]; simpl; [done |]. destruct (is_space c); simpl; lia. Qed.

Lemma lstrip_fixed c s : is_space c = false -> lstrip (c :: s) = c :: s.
Proof. intros Hc. simpl. by rewrite Hc. Qed.

Lemma lstrip_head s :
  lstrip s = s -> match s with [] => True | c :: _ => is_space c = false end.
Proof.
  destruct s as [|c s]; [done |]. simpl. destruct (is_space c); [|done].
  intros Hs. pose proof (lstrip_length s) as Hl. rewrite Hs in Hl. simpl in Hl. lia.
Qed.

Lemma lstrip_idem s : lstrip (lstrip s) = lstrip s.
Proof.
  induction s as [|c s IH]; simpl; [done |].
  destruct (is_space c) eqn:E; [done | by apply lstrip_fixed].
Qed.

Lemma rstrip_snoc s c :
  rstrip (s ++ [c]) = if is_space c then rstrip s else s ++ [c].
Proof.
  unfold rstrip. rewrite reverse_snoc. simpl. destruct (is_space c); [done |].
  by rewrite reverse_cons, reverse_involutive.
Qed.

Lemma rstrip_idem s : rstrip (rstrip s) = rstrip s.
Proof. unfold rstrip. by rewrite reverse_involutive, lstrip_idem. Qed.

Lemma lstrip_rstrip t : lstrip t = t -> lstrip (rstrip t) = rstrip t.
Proof.
  induction t as [|c t IH] using rev_ind; [done |].
  intros Ht. rewrite rstrip_snoc. destruct (is_space c) eqn:E; [|done].
  apply IH. destruct t as [|b t]; [done |].
  apply lstrip_head in Ht. simpl in Ht. by apply lstrip_fixed.
Qed.

(** A stripped string is whitespace-trimmed: stripping it again changes
    nothing. *)
Lemma strip_idem s : strip (strip s) = strip s.
Proof.
  unfold strip. rewrite (lstrip_rstrip (lstrip s)) by apply lstrip_idem.
  apply rstrip_idem.
Qed.

End strip_facts.

Section loop_facts.
Context {A B : Type} (f : A -> B -> exc A).

(** A property the body keeps is kept by the loop. *)
Lemma for_each_invariant (P : A -> Prop) :
  (forall a x a', P a -> f a x = Ok a' -> P a') ->
  forall l a a', P a -> for_each f a l = Ok a' -> P a'.
Proof.
  intros Hstep l. induction l as [|x l IH]; simpl; intros a a' Ha Hl.
  - by injection Hl as <-.
  - destruct (f a x) as [a1|e] eqn:E; simpl in Hl; [|done]. eauto.
Qed.

Lemma for_each_app l1 l2 a :
  for_each f a (l1 ++ l2) = (a' ← for_each f a l1; for_each f a' l2).
Proof.
  revert a; induction l1 as [|x l1 IH]; intros a; simpl; [done |].
  destruct (f a x); simpl; [apply IH | done].
Qed.

End loop_facts.

Section set_facts.
Context `{Runtime}.

Lemma list_of_set_nil : list_of_set [] = [].
Proof.
  destruct (list_of_set []) as [|x l] eqn:E; [done |].
  assert (x ∈ @nil pystr) as Hx by (apply list_of_set_elem; rewrite E; left).
  by apply not_elem_of_nil in Hx.
Qed.

Lemma list_of_set_nonempty (l : list pystr) : l <> [] -> list_of_set l <> [].
Proof.
  destruct l as [|x l]; [done |]. intros _ E.
  assert (x ∈ list_of_set (x :: l)) as Hx by (apply list_of_set_elem; left).
  rewrite E in Hx. by apply not_elem_of_nil in Hx.
Qed.

Lemma list_of_set_singleton (x : pystr) : list_of_set [x] = [x].
Proof.
  pose proof (list_of_set_NoDup [x]) as Hnd.
  pose proof (list_of_set_elem [x]) as Hel.
  destruct (list_of_set [x]) as [|y l] eqn:E.
  - by destruct (list_of_set_nonempty [x]).
  - assert (y = x) as -> by (apply list_elem_of_singleton, Hel; left).
    destruct l as [|z l]; [done |].
    assert (z = x) as -> by (apply list_elem_of_singleton, Hel; right; left).
    apply NoDup_cons in Hnd as [Hnd _]. destruct Hnd. left.
Qed.

End set_facts.

(** ** The dictionary loader *)

Import AutoSvLookup Properties Examples.

(** Case analysis on the first call of a sequence that is known to end
    well: the call ended well too, with a result [x]. *)
Tactic Notation "bind_in" hyp(H) "as" simple_intropattern(x) :=
  unfold mbind, exc_bind in H;
  match type of H with
  | context [match ?m with Ok _ => _ | Raise _ => _ end] =>
      let E := fresh "E" in
      destruct m as [x|] eqn:E; simpl in H; try discriminate H
  end.

Section loader_facts.
Context `{Runtime}.
Implicit Types (dictionary : gmap pykey (list pystr)) (entry : json).

Lemma add_reading_trimmed readings definition readings' :
  Forall trimmed readings ->
  add_reading readings definition = Ok readings' ->
  Forall trimmed readings'.
Proof.
  intros Hall. unfold add_reading.
  destruct definition as [| | | |[|raw ?]|]; try (by intros [= <-]).
  destruct (truthy raw); [|by intros [= <-]].
  destruct raw as [| | |s| |]; simpl; try done.
  intros [= <-]. apply Forall_app; split; [done |].
  apply Forall_singleton. apply strip_idem.
Qed.

(** An entry of length less than 2 is passed over. *)
Lemma entry_readings_short entry n :
  py_len entry = Ok n -> (n < 2)%nat -> entry_readings entry = Ok None.
Proof.
  intros Hn Hlt. unfold entry_readings. rewrite Hn. simpl.
  by rewrite (proj2 (Nat.ltb_lt n 2) Hlt).
Qed.

Lemma add_entry_short dictionary entry n :
  py_len entry = Ok n -> (n < 2)%nat -> add_entry dictionary entry = Ok dictionary.
Proof.
  intros Hn Hlt. unfold add_entry. by rewrite (entry_readings_short _ _ Hn Hlt).
Qed.

(** The readings an entry yields are distinct and trimmed. *)
Lemma entry_readings_unique entry character unique_readings :
  entry_readings entry = Ok (Some (character, unique_readings)) ->
  NoDup unique_readings /\ Forall trimmed unique_readings.
Proof.
  unfold entry_readings. intros He.
  bind_in He as n. destruct (_ <? _)%nat; [done |].
  bind_in He as c. bind_in He as definitions. bind_in He as defs.
  bind_in He as readings.
  simplify_eq. split; [apply list_of_set_NoDup |].
  apply Forall_forall. intros x Hx. apply (proj1 (list_of_set_elem _ _)) in Hx.
  assert (Forall trimmed readings) as Hall.
  { eapply (for_each_invariant add_reading (Forall trimmed)); [| |done].
    - intros ????. by apply add_reading_trimmed.
    - constructor. }
  rewrite Forall_forall in Hall. by apply Hall.
Qed.

(** What one turn of the loop does to the dictionary: nothing, or one
    store of a non-empty list. *)
Lemma add_entry_cases dictionary entry dictionary' :
  add_entry dictionary entry = Ok dictionary' ->
  dictionary' = dictionary \/
  exists character key unique_readings,
    entry_readings entry = Ok (Some (character, unique_readings)) /\
    unique_readings <> [] /\ hash_key character = Ok key /\
    dictionary' = <[key := unique_readings]> dictionary.
Proof.
  unfold add_entry. intros He. bind_in He as [[character [|r rs]]|];
    try (injection He as <-; by left).
  bind_in He as key. injection He as <-. right.
  by exists character, key, (r :: rs).
Qed.

Lemma add_entry_well_formed dictionary entry dictionary' :
  well_formed dictionary -> add_entry dictionary entry = Ok dictionary' ->
  well_formed dictionary'.
Proof.
  intros Hwf [->|(c & k & rs & Hrs & Hne & Hk & ->)]%add_entry_cases; [done |].
  intros key readings. destruct (decide (k = key)) as [->|Hkk].
  - rewrite lookup_insert_eq. intros [= <-].
    by destruct (entry_readings_unique _ _ _ Hrs).
  - rewrite lookup_insert_ne by done. apply Hwf.
Qed.

Lemma preprocess_well_formed yomichan_data dictionary :
  preprocess yomichan_data = Ok dictionary -> well_formed dictionary.
Proof.
  unfold preprocess. intros Hp. bind_in Hp as entries.
  eapply (for_each_invariant add_entry well_formed); [| |done].
  - intros ????. by apply add_entry_well_formed.
  - intros key readings. by rewrite lookup_empty.
Qed.

Lemma stores_short entry n :
  py_len entry = Ok n -> (n < 2)%nat -> stores entry = Ok None.
Proof.
  intros Hn Hlt. unfold stores. by rewrite (entry_readings_short _ _ Hn Hlt).
Qed.

Lemma stores_no_reading entry character :
  entry_readings entry = Ok (Some (character, [])) -> stores entry = Ok None.
Proof. intros He. unfold stores. by rewrite He. Qed.

(** An entry that is too short, or that yields no reading, leaves every
    key as it is. *)
Lemma leaves_of_no_store key entry : stores entry = Ok None -> leaves key entry.
Proof. intros Hs. exists None. by split. Qed.

(** The formatted reading does not depend on the order in which
    [list(set(...))] left the readings. *)
Lemma get_han_viet_reading_order_irrelevant character key
    (d1 d2 : gmap pykey (list pystr)) readings1 readings2 :
  hash_key character = Ok key ->
  d1 !! key = Some readings1 -> d2 !! key = Some readings2 ->
  readings1 ≡ₚ readings2 ->
  get_han_viet_reading character d1 = get_han_viet_reading character d2.
Proof.
  intros Hk H1 H2 Hp. unfold get_han_viet_reading. rewrite Hk. simpl.
  rewrite H1, H2, (sorted_order_irrelevant _ _ Hp).
  destruct readings1 as [|r1 rs1], readings2 as [|r2 rs2]; try done.
  - by apply Permutation_nil_cons in Hp.
  - symmetry in Hp. by apply Permutation_nil_cons in Hp.
Qed.

Lemma add_entry_stores dictionary entry :
  add_entry dictionary entry =
  (update ← stores entry;
   Ok (match update with
       | Some (key, readings) => <[key := readings]> dictionary
       | None => dictionary
       end)).
Proof.
  unfold add_entry, stores, mbind, exc_bind.
  destruct (entry_readings entry) as [[[character [|r rs]]|]|]; try done.
  by destruct (hash_key character).
Qed.

Lemma for_each_add_entry_accepted entries dictionary :
  Forall accepted entries ->
  exists dictionary', for_each add_entry dictionary entries = Ok dictionary'.
Proof.
  intros Hall. revert dictionary.
  induction Hall as [|entry entries [update Hu] _ IH]; intros dictionary; simpl.
  - by eexists.
  - rewrite add_entry_stores, Hu. apply IH.
Qed.

Lemma for_each_add_entry_leaves key entries dictionary :
  Forall (leaves key) entries ->
  exists dictionary', for_each add_entry dictionary entries = Ok dictionary' /\
    dictionary' !! key = dictionary !! key.
Proof.
  intros Hall. revert dictionary.
  induction Hall as [|entry entries (update & Hu & Hkey) _ IH];
    intros dictionary; simpl.
  - by eexists.
  - rewrite add_entry_stores, Hu. simpl.
    destruct update as [[key' readings]|]; [|apply IH].
    destruct (IH (<[key' := readings]> dictionary)) as (d' & Hd' & Hlook).
    exists d'. split; [done |]. rewrite Hlook. apply lookup_insert_ne.
    intros ->. by destruct (Hkey readings).
Qed.

(** C2, evaluated where it fails: a reading of two spaces passes the test
    of [if raw_reading], which comes before [strip], and is stored as the
    empty string; the character, which has no valid reading, is in the
    map. *)
Theorem load_dictionary_stores_blank_reading :
  load_dictionary
    (files (JArr [JArr [JStr water; JArr [JArr [JStr (str "  ")]]]]) JNull)
  = inr {[ KStr water := [ [] ] ]}.
Proof.
  unfold load_dictionary, preprocess, add_entry, entry_readings. simpl.
  unfold str. simpl. change (strip [32; 32]) with (@nil N).
  by rewrite list_of_set_singleton.
Qed.

(** C1, as amended: for a mapping the loader built and a hashable
    character, the lookup of a character in the mapping returns its
    readings, each upper-cased, joined by a comma and a space, in the
    ascending order of the readings as stored (before upper-casing); the
    lookup of a character not in the mapping returns [None]. *)
Theorem get_han_viet_reading_formatted
    (yomichan_data character : json) (dictionary : gmap pykey (list pystr))
    (key : pykey) :
  preprocess yomichan_data = Ok dictionary ->
  hash_key character = Ok key ->
  match dictionary !! key with
  | Some readings =>
      exists ordered,
        ordered ≡ₚ readings /\ StronglySorted str_le ordered /\
        get_han_viet_reading character dictionary
        = Ok (Some (join (str ", ") (upper <$> ordered)))
  | None => get_han_viet_reading character dictionary = Ok None
  end.
Proof.
  intros Hwf%preprocess_well_formed Hkey. unfold get_han_viet_reading.
  rewrite Hkey. simpl. destruct (dictionary !! key) as [readings|] eqn:E; [|done].
  destruct (Hwf _ _ E) as (Hne & _). exists (sorted readings).
  split; [apply sorted_Permutation |]. split; [apply sorted_StronglySorted |].
  by destruct readings.
Qed.

(** C8, as amended: the mapping holds, for a character, the list of the
    last entry that stores one for it, and that list alone; an entry after
    it that is shorter than 2 or yields no reading stores nothing and
    leaves the earlier list in place. *)
Theorem last_storing_entry_wins
    (yomichan_data : json) (before after : list json) (entry : json)
    (key : pykey) (readings : list pystr) :
  py_iter yomichan_data = Ok (before ++ entry :: after) ->
  Forall accepted before ->
  stores entry = Ok (Some (key, readings)) ->
  Forall (leaves key) after ->
  exists dictionary,
    preprocess yomichan_data = Ok dictionary /\
    dictionary !! key = Some readings.
Proof.
  intros Hiter Hbefore Hentry Hafter. unfold preprocess. rewrite Hiter. simpl.
  rewrite for_each_app.
  destruct (for_each_add_entry_accepted before ∅ Hbefore) as [d1 ->]. simpl.
  rewrite add_entry_stores, Hentry. simpl.
  destruct (for_each_add_entry_leaves key after (<[key := readings]> d1) Hafter)
    as (d' & -> & Hlook).
  exists d'. split; [done |]. rewrite Hlook. apply lookup_insert_eq.
Qed.

End loader_facts.

(** C1 as it is stated fails: with the readings b and C the lookup returns
    C, B (C sorts before b, then b is upper-cased), which is not ascending on
    the upper-cased forms. *)
Lemma get_han_viet_reading_sorts_before_upper :
  let dictionary := {[ KStr water := [str "b"; str "C"] ]} in
  preprocess
    (JArr [JArr [JStr water; JArr [JArr [JStr (str "b")]; JArr [JStr (str "C")]]]])
  = Ok dictionary /\
  get_han_viet_reading (JStr water) dictionary = Ok (Some (str "C, B")) /\
  formatted_as_specified [str "b"; str "C"] = str "B, C" /\
  get_han_viet_reading (JStr water) dictionary
  <> Ok (Some (formatted_as_specified [str "b"; str "C"])).
Proof. vm_compute. repeat split; discriminate. Qed.

Lemma get_han_viet_reading_formatted_witness :
  exists ordered,
    ordered ≡ₚ [str "b"; str "C"] /\ StronglySorted str_le ordered /\
    get_han_viet_reading (JStr water) {[ KStr water := [str "b"; str "C"] ]}
    = Ok (Some (join (str ", ") (upper <$> ordered))).
Proof.
  exact (get_han_viet_reading_formatted
           (JArr [JArr [JStr water;
                        JArr [JArr [JStr (str "b")]; JArr [JStr (str "C")]]]])
           (JStr water) {[ KStr water := [str "b"; str "C"] ]} (KStr water)
           eq_refl eq_refl).
Defined.

(** C8 as it is stated fails: the last entry for 水 yields no reading, and
    the mapping still holds the reading of the first. *)
Lemma later_entry_without_reading_keeps_earlier :
  let first := JArr [JStr water; JArr [JArr [JStr (str "A")]]] in
  let last := JArr [JStr water; JArr []] in
  entry_readings last = Ok (Some (JStr water, [])) /\
  preprocess (JArr [first; last]) = Ok {[ KStr water := [str "A"] ]} /\
  preprocess (JArr [first; last]) <> preprocess (JArr [last]).
Proof. vm_compute. repeat split; discriminate. Qed.

Lemma last_storing_entry_wins_witness :
  exists dictionary,
    preprocess
      (JArr [JArr [JStr water; JArr [JArr [JStr (str "A")]]];
             JArr [JStr water; JArr [JArr [JStr (str "B")]]];
             JArr [JStr fire; JArr [JArr [JStr (str "C")]]];
             JArr [JStr water]]) = Ok dictionary /\
    dictionary !! KStr water = Some [str "B"].
Proof.
  apply (last_storing_entry_wins _
           [JArr [JStr water; JArr [JArr [JStr (str "A")]]]]
           [JArr [JStr fire; JArr [JArr [JStr (str "C")]]]; JArr [JStr water]]
           (JArr [JStr water; JArr [JArr [JStr (str "B")]]])).
  - reflexivity.
  - repeat constructor. by eexists.
  - reflexivity.
  - repeat constructor; eexists; (split; [reflexivity | discriminate]).
Defined.


(** ** The enricher *)

Section enricher_facts.
Context `{Runtime}.
Implicit Types (hvd : gmap pykey (list pystr)) (kanji_entry : json).

(** Whatever a turn of the loop does, it leaves the record as it was
    outside its [meaning]. *)
Lemma process_entry_frame hvd kanji_entry m s kanji_entry' m' s' :
  process_entry hvd kanji_entry m s = Ok (kanji_entry', m', s') ->
  blank_meaning kanji_entry' = blank_meaning kanji_entry.
Proof.
  unfold process_entry. intros Hp.
  bind_in Hp as character. bind_in Hp as current_meaning.
  destruct (truthy character && negb (is_none current_meaning));
    [|by simplify_eq].
  bind_in Hp as [[|c sv]|]; try (by simplify_eq).
  bind_in Hp as stripped.
  destruct kanji_entry as [| | | | |fields]; try done.
  destruct current_meaning as [| | |meaning| |]; try done.
  simplify_eq. simpl in *. simplify_eq.
  rewrite dict_get_set, dict_set_set.
  destruct (dict_get fields (str "meaning")); [done | simplify_eq].
Qed.

Lemma process_entries_frame hvd entries m s entries' m' s' :
  process_entries hvd entries m s = Ok (entries', m', s') ->
  blank_meaning <$> entries' = blank_meaning <$> entries.
Proof.
  revert m s entries' m' s'.
  induction entries as [|e entries IH]; simpl; intros m s entries' m' s' Hp.
  - by simplify_eq.
  - bind_in Hp as [[e1 m1] s1]. bind_in Hp as [[rest m2] s2]. simplify_eq.
    simpl. f_equal; [by eapply process_entry_frame | by eapply IH].
Qed.

(** A turn of the loop on a KanjiRecord: it ends without an exception;
    a record that is not eligible is returned as it is with both counters
    as they were; for an eligible one exactly one counter is one more. *)
Lemma process_entry_counters hvd kanji_entry m s :
  kanji_record kanji_entry = true ->
  exists kanji_entry' m' s',
    process_entry hvd kanji_entry m s = Ok (kanji_entry', m', s') /\
    if eligible kanji_entry
    then (m' = S m /\ s' = s) \/ (m' = m /\ s' = S s)
    else kanji_entry' = kanji_entry /\ m' = m /\ s' = s.
Proof.
  unfold kanji_record, eligible, process_entry.
  destruct kanji_entry as [| | | | |fields]; try done. simpl.
  destruct (dict_get fields (str "character")) as [[| | |c| |]|]; simpl;
    try done; try (by intros _; eauto 10);
    destruct (dict_get fields (str "meaning")) as [[| | |meaning| |]|]; simpl;
    try done; try (by intros _; eauto 10);
    try (by destruct c; intros _; simpl; eauto 10).
  intros _. destruct c as [|c0 c]; simpl; [by eauto 10 |].
  unfold get_han_viet_reading. simpl.
  destruct (hvd !! KStr (c0 :: c)) as [[|r rs]|]; simpl; try (by eauto 10).
  destruct (join _ _) as [|j js]; simpl; by eauto 10.
Qed.

Lemma process_entries_counters hvd entries m s :
  Forall (fun e => kanji_record e = true) entries ->
  exists entries' m' s',
    process_entries hvd entries m s = Ok (entries', m', s') /\
    (m' + s' = m + s + length (filter (fun e => eligible e = true) entries))%nat.
Proof.
  intros Hall. revert m s.
  induction Hall as [|e entries He _ IH]; intros m s; simpl.
  - exists [], m, s. split; [done | lia].
  - destruct (process_entry_counters hvd e m s He) as (e1 & m1 & s1 & -> & Hc).
    simpl. destruct (IH m1 s1) as (rest & m2 & s2 & -> & Hsum). simpl.
    exists (e1 :: rest), m2, s2. split; [done |].
    rewrite filter_cons. destruct (decide (eligible e = true)) as [Ht|Hf].
    + rewrite Ht in Hc. simpl. lia.
    + apply not_true_is_false in Hf. rewrite Hf in Hc. lia.
Qed.

Lemma process_entries_app hvd (entries1 entries2 : list json) m s :
  process_entries hvd (entries1 ++ entries2) m s
  = match process_entries hvd entries1 m s with
    | Ok (done1, m1, s1) =>
        match process_entries hvd entries2 m1 s1 with
        | Ok (done2, m2, s2) => Ok (done1 ++ done2, m2, s2)
        | Raise e => Raise e
        end
    | Raise e => Raise e
    end.
Proof.
  revert m s. induction entries1 as [|e entries1 IH]; intros m s; simpl.
  - by destruct (process_entries hvd entries2 m s) as [[[done2 m2] s2]|].
  - destruct (process_entry hvd e m s) as [[[e1 m1] s1]|]; simpl; [|done].
    rewrite IH.
    destruct (process_entries hvd entries1 m1 s1) as [[[done1 m2] s2]|];
      simpl; [|done].
    by destruct (process_entries hvd entries2 m2 s2) as [[[done2 m3] s3]|].
Qed.

(** The loop returns every record that is not eligible as it was. *)
Lemma process_entries_unchanged hvd entries m s entries' m' s' :
  Forall (fun e => kanji_record e = true) entries ->
  process_entries hvd entries m s = Ok (entries', m', s') ->
  Forall2 (fun e e' => eligible e = false -> e' = e) entries entries'.
Proof.
  intros Hall. revert m s entries' m' s'.
  induction Hall as [|e entries He _ IH]; intros m s entries' m' s' Hp;
    simpl in Hp.
  - simplify_eq. constructor.
  - destruct (process_entry_counters hvd e m s He)
      as (e1 & m1 & s1 & Hstep & Hcase).
    rewrite Hstep in Hp. simpl in Hp.
    destruct (process_entries hvd entries m1 s1) as [[[rest m2] s2]|] eqn:Hrest;
      simpl in Hp; [|done].
    simplify_eq. constructor; [|by eapply IH].
    intros Hel. rewrite Hel in Hcase. by destruct Hcase.
Qed.

(** C3: on KanjiRecords, a record whose [character] is missing or falsy
    or whose [meaning] is missing or null is returned as it is and moves
    neither counter; a record with both moves exactly one of the two
    counters by one; and at the end of the loop the two counters together
    do not exceed the number of records with both.  Each part is stated
    of the loop itself: of the counters before and after the turn of each
    record, and of the counters and the records at its end, where the two
    counters together are in fact the number of records with both. *)
Theorem enricher_counters hvd (entries : list json) :
  Forall (fun e => kanji_record e = true) entries ->
  (forall kanji_entry m s, kanji_entry ∈ entries ->
     exists kanji_entry' m' s',
       process_entry hvd kanji_entry m s = Ok (kanji_entry', m', s') /\
       if eligible kanji_entry
       then (m' = S m /\ s' = s) \/ (m' = m /\ s' = S s)
       else kanji_entry' = kanji_entry /\ m' = m /\ s' = s) /\
  (forall before kanji_entry after,
     entries = before ++ kanji_entry :: after ->
     exists processed m s kanji_entry' m' s',
       process_entries hvd before 0 0 = Ok (processed, m, s) /\
       process_entries hvd (before ++ [kanji_entry]) 0 0
       = Ok (processed ++ [kanji_entry'], m', s') /\
       if eligible kanji_entry
       then (m' = S m /\ s' = s) \/ (m' = m /\ s' = S s)
       else kanji_entry' = kanji_entry /\ m' = m /\ s' = s) /\
  exists entries' modified skipped,
    process_entries hvd entries 0 0 = Ok (entries', modified, skipped) /\
    (modified + skipped
     <= length (filter (fun e => eligible e = true) entries))%nat /\
    (modified + skipped
     = length (filter (fun e => eligible e = true) entries))%nat /\
    Forall2 (fun e e' => eligible e = false -> e' = e) entries entries'.
Proof.
  intros Hall. split; [|split].
  - intros e m s He. apply process_entry_counters.
    rewrite Forall_forall in Hall. by apply Hall.
  - intros before e after ->.
    apply Forall_app in Hall as [Hbefore [He _]%Forall_cons].
    destruct (process_entries_counters hvd before 0 0 Hbefore)
      as (processed & m & s & Hp & _).
    destruct (process_entry_counters hvd e m s He)
      as (e' & m' & s' & Hstep & Hcase).
    exists processed, m, s, e', m', s'. split; [done |]. split; [|done].
    rewrite process_entries_app, Hp. simpl. by rewrite Hstep.
  - destruct (process_entries_counters hvd entries 0 0 Hall)
      as (entries' & m' & s' & Hp & Hsum).
    exists entries', m', s'. split; [done |]. split; [lia |]. split; [lia |].
    by eapply process_entries_unchanged.
Qed.


Lemma enrich_frame hvd fields kanji_list data' m s :
  dict_get fields (str "kanji") = Some kanji_list ->
  enrich hvd (JObj fields) = Ok (data', m, s) ->
  outside_meaning data' = outside_meaning (JObj fields).
Proof.
  intros Hk. unfold enrich. simpl. rewrite Hk. simpl. intros He.
  bind_in He as total. bind_in He as entries.
  bind_in He as [[entries' m'] s']. simplify_eq. simpl.
  rewrite dict_get_set.
  destruct kanji_list as [| | |c|items|o]; simpl in *; simplify_eq;
    try (by rewrite (dict_set_same _ _ _ Hk)).
  rewrite dict_set_set. do 3 f_equal. by eapply process_entries_frame.
Qed.

(** On a document whose [kanji] array holds KanjiRecords the loop ends
    without an exception. *)
Lemma enrich_returns hvd fields entries :
  dict_get fields (str "kanji") = Some (JArr entries) ->
  Forall (fun e => kanji_record e = true) entries ->
  exists data' m s, enrich hvd (JObj fields) = Ok (data', m, s).
Proof.
  intros Hk Hall. unfold enrich. simpl. rewrite Hk. simpl.
  destruct (process_entries_counters hvd entries 0 0 Hall)
    as (entries' & m & s & -> & _).
  simpl. eauto.
Qed.

Lemma enrich_without_kanji hvd fields :
  dict_get fields (str "kanji") = None ->
  enrich hvd (JObj fields)
  = Ok (JObj (fields ++ [(str "kanji", JArr [])]), 0%nat, 0%nat).
Proof.
  intros Hk. unfold enrich. simpl. rewrite Hk. simpl.
  by rewrite (dict_set_fresh _ _ _ Hk).
Qed.

(** C5, as amended: when the input document has a [kanji] key, the
    document the enricher writes is the input document outside the
    [meaning] fields of the records of its [kanji] array. *)
Theorem enricher_frame (fs : filesystem) (fields : list (pystr * json))
    (kanji_list out : json) :
  content fs KANJI_INPUT_FILE = Parsed (JObj fields) ->
  dict_get fields (str "kanji") = Some kanji_list ->
  written (process_kanji_file fs) = [(OUTPUT_FILE, out)] ->
  outside_meaning out = outside_meaning (JObj fields).
Proof.
  intros Hin Hk. unfold process_kanji_file.
  destruct (load_dictionary fs) as [code|hvd]; [done |]. rewrite Hin.
  destruct (enrich hvd (JObj fields)) as [[[data' m] s]|e] eqn:He; [|done].
  destruct (writable fs OUTPUT_FILE); [|done]. simpl. intros [= <-].
  by eapply enrich_frame.
Qed.

(** C6: a document that is an object without a [kanji] key is written
    back with a [kanji] key added last, mapped to an empty array, and both
    counters are zero. *)
Theorem missing_kanji_key (fs : filesystem) hvd (fields : list (pystr * json)) :
  load_dictionary fs = inr hvd ->
  content fs KANJI_INPUT_FILE = Parsed (JObj fields) ->
  dict_get fields (str "kanji") = None ->
  writable fs OUTPUT_FILE = true ->
  process_kanji_file fs
  = {| opened := [YOMICHAN_DICTIONARY_FILE; KANJI_INPUT_FILE];
       written := [(OUTPUT_FILE, JObj (fields ++ [(str "kanji", JArr [])]))];
       ended := Returned;
       report := Some (0%nat, 0%nat) |}.
Proof.
  intros Hd Hin Hk Hw. unfold process_kanji_file.
  by rewrite Hd, Hin, (enrich_without_kanji _ _ Hk), Hw.
Qed.


End enricher_facts.

Lemma enricher_counters_witness :
  let hvd : gmap pykey (list pystr) := {[ KStr water := [THUY] ]} in
  let entries :=
    [record water (str "water"); record dragon (str "dragon");
     JObj [(str "character", JStr fire)]] in
  Forall (fun e => kanji_record e = true) entries /\
  exists entries' modified skipped,
    process_entries hvd entries 0 0 = Ok (entries', modified, skipped) /\
    (modified + skipped
     <= length (filter (fun e => eligible e = true) entries))%nat /\
    (modified + skipped
     = length (filter (fun e => eligible e = true) entries))%nat /\
    Forall2 (fun e e' => eligible e = false -> e' = e) entries entries'.
Proof.
  intros hvd entries.
  assert (Forall (fun e => kanji_record e = true) entries) as Hall
    by (repeat constructor).
  split; [exact Hall |].
  exact (proj2 (proj2 (enricher_counters hvd entries Hall))).
Defined.


(** The three scenarios of the specification for the enricher. *)
Example scenario_A :
  process_entries {[ KStr water := [THUY] ]} [record water (str "water")] 0 0
  = Ok ([record water (THUY ++ str ", water")], 1%nat, 0%nat).
Proof. reflexivity. Qed.

Example scenario_B :
  process_entries {[ KStr water := [THUY] ]} [record dragon (str "dragon")] 0 0
  = Ok ([record dragon (str "dragon")], 0%nat, 1%nat).
Proof. reflexivity. Qed.

Example scenario_C :
  process_entries {[ KStr fire := [HOA] ]} [record fire []] 0 0
  = Ok ([record fire HOA], 1%nat, 0%nat).
Proof. reflexivity. Qed.

(** C5 as it is stated fails: a document without a [kanji] key is written
    back with one, which is a change outside every [meaning] field. *)
Lemma enricher_adds_kanji_key :
  let data := JObj [(str "title", JStr (str "N5"))] in
  let out := JObj [(str "title", JStr (str "N5")); (str "kanji", JArr [])] in
  written (process_kanji_file (files (JArr []) data)) = [(OUTPUT_FILE, out)] /\
  outside_meaning out <> outside_meaning data.
Proof. vm_compute. split; [reflexivity | discriminate]. Qed.

Lemma enricher_frame_witness :
  let dictionary := JArr [JArr [JStr water; JArr [JArr [JStr THUY]]]] in
  let fields :=
    [(str "title", JStr (str "N5"));
     (str "kanji", JArr [record water (str "water"); record dragon (str "dragon")])] in
  let out :=
    JObj [(str "title", JStr (str "N5"));
          (str "kanji", JArr [record water (THUY ++ str ", water");
                              record dragon (str "dragon")])] in
  written (process_kanji_file (files dictionary (JObj fields)))
  = [(OUTPUT_FILE, out)] /\
  outside_meaning out = outside_meaning (JObj fields).
Proof.
  intros dictionary fields out.
  assert (written (process_kanji_file (files dictionary (JObj fields)))
          = [(OUTPUT_FILE, out)]) as Hw by reflexivity.
  split; [exact Hw |].
  exact (enricher_frame (files dictionary (JObj fields)) fields _ out
           eq_refl eq_refl Hw).
Defined.

Lemma missing_kanji_key_witness :
  let fields := [(str "title", JStr (str "N5"))] in
  process_kanji_file (files (JArr []) (JObj fields))
  = {| opened := [YOMICHAN_DICTIONARY_FILE; KANJI_INPUT_FILE];
       written := [(OUTPUT_FILE, JObj (fields ++ [(str "kanji", JArr [])]))];
       ended := Returned;
       report := Some (0%nat, 0%nat) |}.
Proof.
  intros fields.
  exact (missing_kanji_key (files (JArr []) (JObj fields)) ∅ fields
           eq_refl eq_refl eq_refl eq_refl).
Defined.

(** C7: the enricher run on its own output prepends the reading a second
    time, so that running it twice differs from running it once. *)
Theorem enrichment_not_idempotent :
  let dictionary := JArr [JArr [JStr water; JArr [JArr [JStr THUY]]]] in
  let input := JObj [(str "kanji", JArr [record water (str "water")])] in
  let once :=
    JObj [(str "kanji", JArr [record water (THUY ++ str ", water")])] in
  let twice :=
    JObj [(str "kanji",
           JArr [record water (THUY ++ str ", " ++ THUY ++ str ", water")])] in
  get_han_viet_reading (JStr water) {[ KStr water := [THUY] ]} = Ok (Some THUY) /\
  written (process_kanji_file (files dictionary input)) = [(OUTPUT_FILE, once)] /\
  written (process_kanji_file (files dictionary once)) = [(OUTPUT_FILE, twice)] /\
  twice <> once.
Proof. vm_compute. repeat split; discriminate. Qed.


(** ** The splitter *)

Import SplitKanji.

Section splitter_facts.
Context `{Runtime}.
Implicit Types (jlpt_groups : gmap pystr (list json)) (kanji : json).

(** The key the code files a record under is the one the record's
    category matches. *)
Lemma matches_category_key (key : pystr) kanji :
  matches key kanji
  = match category_key kanji with
    | Ok category => str_eqb category key
    | Raise _ => false
    end.
Proof.
  unfold matches, category_key. destruct kanji as [| | | | |fields]; try done.
  simpl. by destruct (dict_get fields (str "category")) as [[| | |c| |]|].
Qed.

Lemma categorised_key kanji :
  categorised kanji = true -> exists category, category_key kanji = Ok category.
Proof.
  unfold categorised, category_key. destruct kanji as [| | | | |fields]; try done.
  simpl. destruct (dict_get fields (str "category")) as [[| | |c| |]|];
    try done; intros _; simpl; by eexists.
Qed.

(** A turn of the loop appends the record to the group of its key, if
    there is one, and to no other. *)
Lemma add_kanji_lookup jlpt_groups kanji :
  categorised kanji = true ->
  exists jlpt_groups',
    add_kanji jlpt_groups kanji = Ok jlpt_groups' /\
    forall key,
      jlpt_groups' !! key
      = (fun group => group ++ (if matches key kanji then [kanji] else []))
          <$> jlpt_groups !! key.
Proof.
  intros [category Hc]%categorised_key. unfold add_kanji.
  rewrite Hc. simpl.
  destruct (jlpt_groups !! category) as [group|] eqn:E; eexists; (split; [done |]);
    intros key; rewrite (matches_category_key key kanji), Hc;
    unfold str_eqb; case_bool_decide as Hkey; subst.
  - by rewrite lookup_insert_eq, E.
  - rewrite lookup_insert_ne by done.
    destruct (jlpt_groups !! key); simpl; by rewrite ?app_nil_r.
  - by rewrite E.
  - destruct (jlpt_groups !! key); simpl; by rewrite ?app_nil_r.
Qed.

Lemma for_each_add_kanji_lookup kanji_list jlpt_groups :
  Forall (fun kanji => categorised kanji = true) kanji_list ->
  exists jlpt_groups',
    for_each add_kanji jlpt_groups kanji_list = Ok jlpt_groups' /\
    forall key,
      jlpt_groups' !! key
      = (fun group =>
           group ++ filter (fun kanji => matches key kanji = true) kanji_list)
          <$> jlpt_groups !! key.
Proof.
  intros Hall. revert jlpt_groups.
  induction Hall as [|kanji kanji_list Hk _ IH]; intros jlpt_groups; simpl.
  - eexists. split; [done |]. intros key.
    destruct (jlpt_groups !! key); simpl; by rewrite ?app_nil_r.
  - destruct (add_kanji_lookup jlpt_groups kanji Hk) as (g1 & -> & H1). simpl.
    destruct (IH g1) as (g2 & -> & H2). exists g2. split; [done |].
    intros key. rewrite H2, H1, filter_cons.
    destruct (jlpt_groups !! key) as [group|]; simpl; [|done].
    destruct (decide (matches key kanji = true)) as [Ht|Hf].
    + rewrite Ht. by rewrite <- app_assoc.
    + apply not_true_is_false in Hf. rewrite Hf. by rewrite app_nil_r.
Qed.

(** The guard [if not kanji_list]: with no [kanji] key, or a falsy value
    under it, the run returns before any file is written. *)
Lemma split_without_kanji (fs : filesystem) (input_filename : string)
    (fields : list (pystr * json)) :
  content fs input_filename = Parsed (JObj fields) ->
  truthy (default (JArr []) (dict_get fields (str "kanji"))) = false ->
  split_kanji_by_jlpt_level fs input_filename
  = {| opened := [input_filename]; written := []; ended := Returned |}.
Proof.
  intros Hin Hk. unfold split_kanji_by_jlpt_level. rewrite Hin. simpl.
  by rewrite Hk.
Qed.

(** C10, as amended: for a dataset whose [kanji] array is not empty and
    holds objects whose [category], if any, is a string, and with the five
    files writable, the splitter writes the five files of the keys jlptn5
    to jlptn1, each with the records whose lower-cased category is its
    key, in input order; a record that matches none of the keys is in none
    of them. *)
Theorem split_by_level (fs : filesystem) (input_filename : string)
    (fields : list (pystr * json)) (kanji_list : list json) :
  content fs input_filename = Parsed (JObj fields) ->
  dict_get fields (str "kanji") = Some (JArr kanji_list) ->
  kanji_list <> [] ->
  Forall (fun kanji => categorised kanji = true) kanji_list ->
  Forall (fun output => writable fs output.2 = true) output_filenames ->
  split_kanji_by_jlpt_level fs input_filename
  = {| opened := [input_filename];
       written := level_file kanji_list <$> output_filenames;
       ended := Returned |} /\
  forall kanji, kanji ∈ kanji_list ->
    Forall (fun output => matches output.1 kanji = false) output_filenames ->
    forall name records,
      (name, JObj [(str "kanji", JArr records)])
        ∈ written (split_kanji_by_jlpt_level fs input_filename) ->
      kanji ∉ records.
Proof.
  intros Hin Hk Hne Hall Hw.
  assert (split_kanji_by_jlpt_level fs input_filename
          = {| opened := [input_filename];
               written := level_file kanji_list <$> output_filenames;
               ended := Returned |}) as Hrun.
  { unfold split_kanji_by_jlpt_level. rewrite Hin. simpl. rewrite Hk. simpl.
    destruct kanji_list as [|kanji kanji_list]; [done |]. simpl negb. cbv iota.
    unfold group_by_category. simpl py_iter.
    destruct (for_each_add_kanji_lookup (kanji :: kanji_list)
                jlpt_groups_init Hall) as (groups & Hg & Hlook).
    unfold mbind at 1, exc_bind at 1. rewrite Hg. f_equal.
    unfold write_groups, output_filenames in *.
    repeat (apply Forall_cons in Hw as [? Hw]). simpl in *.
    repeat match goal with Hx : writable _ _ = true |- _ => rewrite Hx; clear Hx end.
    rewrite !Hlook. reflexivity. }
  split; [exact Hrun |].
  intros kanji Hin_list Hnone name records. rewrite Hrun. cbn [written].
  intros Hfile. apply list_elem_of_fmap in Hfile as ([key name'] & Hfile & Hout).
  rewrite Forall_forall in Hnone. specialize (Hnone _ Hout). simpl in Hnone.
  unfold level_file in Hfile. simpl in Hfile. injection Hfile as _ ->.
  intros Hmem%list_elem_of_filter. destruct Hmem as [Hm _]. congruence.
Qed.

End splitter_facts.

(** C10 as it is stated fails: for a dataset with an empty [kanji] array
    the splitter returns after its warning and writes no file. *)
Lemma split_of_empty_dataset_writes_nothing :
  split_kanji_by_jlpt_level (files JNull (JObj [(str "kanji", JArr [])]))
    "kanji-org.json"
  = {| opened := ["kanji-org.json"%string]; written := []; ended := Returned |}
  /\ length (written (split_kanji_by_jlpt_level
                        (files JNull (JObj [(str "kanji", JArr [])]))
                        "kanji-org.json")) <> 5%nat.
Proof. vm_compute. split; [reflexivity | discriminate]. Qed.

(** Scenario D of the specification. *)
Example scenario_D :
  written (split_kanji_by_jlpt_level
             (files JNull
                (JObj [(str "kanji",
                        JArr [level water (str "JLPTN5");
                              level fire (str "jlptn3");
                              level dragon (str "unknown")])]))
             "kanji-org.json")
  = [("kanji-jlpt-n5.json"%string,
      JObj [(str "kanji", JArr [level water (str "JLPTN5")])]);
     ("kanji-jlpt-n4.json"%string, JObj [(str "kanji", JArr [])]);
     ("kanji-jlpt-n3.json"%string,
      JObj [(str "kanji", JArr [level fire (str "jlptn3")])]);
     ("kanji-jlpt-n2.json"%string, JObj [(str "kanji", JArr [])]);
     ("kanji-jlpt-n1.json"%string, JObj [(str "kanji", JArr [])])].
Proof. vm_compute. reflexivity. Qed.

Lemma split_by_level_witness :
  let kanji_list :=
    [level water (str "JLPTN5"); level fire (str "jlptn3");
     level dragon (str "unknown"); level fire (str "JlptN5")] in
  let fs := files JNull (JObj [(str "kanji", JArr kanji_list)]) in
  Forall (fun kanji => categorised kanji = true) kanji_list /\
  split_kanji_by_jlpt_level fs "kanji-org.json"
  = {| opened := ["kanji-org.json"%string];
       written :=
         [("kanji-jlpt-n5.json"%string,
           JObj [(str "kanji",
                  JArr [level water (str "JLPTN5"); level fire (str "JlptN5")])]);
          ("kanji-jlpt-n4.json"%string, JObj [(str "kanji", JArr [])]);
          ("kanji-jlpt-n3.json"%string,
           JObj [(str "kanji", JArr [level fire (str "jlptn3")])]);
          ("kanji-jlpt-n2.json"%string, JObj [(str "kanji", JArr [])]);
          ("kanji-jlpt-n1.json"%string, JObj [(str "kanji", JArr [])])];
       ended := Returned |}.
Proof.
  intros kanji_list fs.
  assert (Forall (fun kanji => categorised kanji = true) kanji_list) as Hall
    by (repeat constructor).
  split; [exact Hall |].
  rewrite (proj1 (split_by_level fs "kanji-org.json"
                    [(str "kanji", JArr kanji_list)] kanji_list
                    eq_refl eq_refl ltac:(discriminate) Hall
                    ltac:(repeat constructor))).
  reflexivity.
Defined.

(** ** More on the dictionary loader *)

Import AutoSvLookup.

Section loader_properties.
Context `{Runtime}.
Implicit Types (dictionary : gmap pykey (list pystr)) (entry : json).

(** X1: in every mapping [load_dictionary] returns, the list of a
    character is not empty, holds no reading twice, and holds only readings
    that [strip] leaves as they are. *)
Theorem loaded_dictionary_invariant (fs : filesystem) dictionary :
  load_dictionary fs = inr dictionary ->
  forall key readings, dictionary !! key = Some readings ->
    readings <> [] /\ NoDup readings /\ Forall (fun r => strip r = r) readings.
Proof.
  unfold load_dictionary. intros Hload.
  destruct (content fs YOMICHAN_DICTIONARY_FILE) as [| | |data]; try done.
  destruct (preprocess data) as [d|e] eqn:Hp; [|done]. injection Hload as <-.
  exact (preprocess_well_formed _ _ Hp).
Qed.

(** X2: an entry of length less than 2 contributes nothing, wherever it
    sits: the file loads as it does without the entry. *)
Theorem short_entry_is_skipped (before after : list json) entry (n : nat) :
  py_len entry = Ok n -> (n < 2)%nat ->
  preprocess (JArr (before ++ entry :: after))
  = preprocess (JArr (before ++ after)).
Proof.
  intros Hn Hlt. unfold preprocess. simpl. rewrite !for_each_app.
  destruct (for_each add_entry ∅ before) as [d|e]; simpl; [|done].
  by rewrite (add_entry_short _ _ _ Hn Hlt).
Qed.

(** X3: a key under which no entry of the file stores a list is absent
    from the mapping. *)
Theorem unstored_key_is_absent (yomichan_data : json) (entries : list json)
    (key : pykey) :
  py_iter yomichan_data = Ok entries ->
  Forall (leaves key) entries ->
  exists dictionary,
    preprocess yomichan_data = Ok dictionary /\ dictionary !! key = None.
Proof.
  intros Hiter Hall. unfold preprocess. rewrite Hiter. simpl.
  destruct (for_each_add_entry_leaves key entries ∅ Hall) as (d & -> & Hlook).
  exists d. split; [done |]. by rewrite Hlook, lookup_empty.
Qed.

Lemma add_entry_of_str dictionary (s : pystr) :
  add_entry dictionary (JStr s) = Ok dictionary.
Proof.
  unfold add_entry, entry_readings. simpl.
  destruct s as [|a [|b s]]; simpl; try done.
  by rewrite list_of_set_nil.
Qed.

Lemma for_each_add_entry_of_strs dictionary (entries : list json) :
  Forall (fun entry => exists s, entry = JStr s) entries ->
  for_each add_entry dictionary entries = Ok dictionary.
Proof.
  induction 1 as [|entry entries [s ->] _ IH]; simpl; [done |].
  by rewrite add_entry_of_str.
Qed.

(** X4: a dictionary file that holds a JSON string or a JSON object, not
    an array of entries, is not refused: it loads as the empty mapping. *)
Theorem non_array_dictionary_loads_empty (fs : filesystem) :
  (exists s, content fs YOMICHAN_DICTIONARY_FILE = Parsed (JStr s)) \/
  (exists o, content fs YOMICHAN_DICTIONARY_FILE = Parsed (JObj o)) ->
  load_dictionary fs = inr ∅.
Proof.
  unfold load_dictionary, preprocess.
  intros [[s ->] | [o ->]]; simpl; rewrite for_each_add_entry_of_strs; try done.
  - apply Forall_fmap, Forall_true. intros c. by eexists.
  - apply Forall_fmap, Forall_true. intros kv. by eexists.
Qed.

Lemma for_each_add_entry_raises dictionary (entries : list json) bad e :
  bad ∈ entries -> stores bad = Raise e ->
  exists e', for_each add_entry dictionary entries = Raise e'.
Proof.
  intros Hin Hbad. revert dictionary.
  induction Hin as [bad entries | bad entry entries _ IH]; intros dictionary;
    simpl; rewrite add_entry_stores.
  - rewrite Hbad. by eexists.
  - destruct (stores entry) as [update|e1]; simpl; [apply IH; done | by eexists].
Qed.

(** X5: one entry on which the loop body raises (a reading that is truthy
    and not a string, a character that cannot be hashed) makes the load
    fatal, wherever the entry sits and whatever the other entries are. *)
Theorem malformed_entry_is_fatal (fs : filesystem) (entries : list json)
    bad e :
  content fs YOMICHAN_DICTIONARY_FILE = Parsed (JArr entries) ->
  bad ∈ entries -> stores bad = Raise e ->
  load_dictionary fs = inl 1%Z.
Proof.
  intros Hc Hin Hbad. unfold load_dictionary, preprocess. rewrite Hc. simpl.
  by destruct (for_each_add_entry_raises ∅ entries bad e Hin Hbad) as [e' ->].
Qed.



End loader_properties.

Lemma loaded_dictionary_invariant_witness :
  let fs :=
    files (JArr [JArr [JStr water;
                       JArr [JArr [JStr (str " A ")]; JArr [JStr (str "A")];
                             JArr [JStr (str "B ")]]]]) JNull in
  load_dictionary fs = inr {[ KStr water := [str "A"; str "B"] ]} /\
  ([str "A"; str "B"] <> [] /\ NoDup [str "A"; str "B"] /\
   Forall (fun r => strip r = r) [str "A"; str "B"]).
Proof.
  intros fs. split; [reflexivity |].
  exact (loaded_dictionary_invariant fs {[ KStr water := [str "A"; str "B"] ]}
           eq_refl (KStr water) [str "A"; str "B"] eq_refl).
Defined.

Lemma short_entry_is_skipped_witness :
  preprocess (JArr ([JArr [JStr water; JArr [JArr [JStr THUY]]]]
                    ++ JArr [JStr fire]
                    :: [JArr [JStr fire; JArr [JArr [JStr HOA]]]]))
  = preprocess (JArr ([JArr [JStr water; JArr [JArr [JStr THUY]]]]
                      ++ [JArr [JStr fire; JArr [JArr [JStr HOA]]]])).
Proof.
  apply (short_entry_is_skipped _ _ (JArr [JStr fire]) 1); [reflexivity |].
  apply Nat.lt_succ_diag_r.
Defined.

Lemma unstored_key_is_absent_witness :
  exists dictionary,
    preprocess (JArr [JArr [JStr water; JArr []]; JArr [JStr water];
                      JArr [JStr fire; JArr [JArr [JStr HOA]]]])
    = Ok dictionary /\
    dictionary !! KStr water = None.
Proof.
  apply (unstored_key_is_absent _
           [JArr [JStr water; JArr []]; JArr [JStr water];
            JArr [JStr fire; JArr [JArr [JStr HOA]]]]); [reflexivity |].
  repeat constructor; eexists; (split; [reflexivity | discriminate]).
Defined.

Lemma non_array_dictionary_loads_empty_witness :
  load_dictionary (files (JObj [(water ++ fire, JArr [JArr [JStr THUY]])]) JNull)
  = inr ∅.
Proof.
  apply non_array_dictionary_loads_empty. right. eexists. reflexivity.
Defined.

Lemma malformed_entry_is_fatal_witness :
  let bad := JArr [JStr fire; JArr [JArr [JInt 5]]] in
  stores bad = Raise AttributeError /\
  load_dictionary
    (files (JArr [JArr [JStr water; JArr [JArr [JStr THUY]]]; bad]) JNull)
  = inl 1%Z.
Proof.
  intros bad. split; [reflexivity |].
  apply (malformed_entry_is_fatal _
           [JArr [JStr water; JArr [JArr [JStr THUY]]]; bad] bad AttributeError);
    [reflexivity | | reflexivity].
  right. left.
Defined.


(** ** More on the enricher *)

Section enricher_properties.
Context `{Runtime}.
Implicit Types (hvd : gmap pykey (list pystr)) (kanji_entry : json).

Lemma dict_get_set_ne (o : list (pystr * json)) (k k' : pystr) (v : json) :
  k <> k' -> dict_get (dict_set o k v) k' = dict_get o k'.
Proof.
  intros Hne. induction o as [|[k0 v0] o IH]; simpl.
  - unfold str_eqb. by rewrite bool_decide_eq_false_2.
  - destruct (str_eqb k0 k) eqn:E; simpl; [|by rewrite IH].
    unfold str_eqb in *. apply bool_decide_eq_true in E as ->.
    by rewrite !bool_decide_eq_false_2.
Qed.

(** A turn of the loop that ends well moves the counters together by one
    for an eligible record and by nothing for another. *)
Lemma process_entry_sum hvd kanji_entry m s kanji_entry' m' s' :
  process_entry hvd kanji_entry m s = Ok (kanji_entry', m', s') ->
  (m' + s' = m + s + (if eligible kanji_entry then 1 else 0))%nat.
Proof.
  unfold process_entry, eligible. intros Hp.
  destruct kanji_entry as [| | | | |fields]; try done. simpl in Hp.
  destruct (dict_get fields (str "character")) as [character|]; simpl in Hp;
    [|simplify_eq; lia].
  destruct (dict_get fields (str "meaning")) as [meaning|]; simpl in Hp;
    [|rewrite andb_false_r in Hp; simplify_eq; lia].
  destruct (truthy character && negb (is_none meaning)); [|simplify_eq; lia].
  bind_in Hp as [[|c sv]|]; try (simplify_eq; lia).
  bind_in Hp as stripped. destruct meaning; try done. simplify_eq. lia.
Qed.

Lemma process_entries_sum hvd entries m s entries' m' s' :
  process_entries hvd entries m s = Ok (entries', m', s') ->
  (m' + s'
   = m + s + length (filter (fun e => eligible e = true) entries))%nat.
Proof.
  revert m s entries' m' s'.
  induction entries as [|e entries IH]; simpl; intros m s entries' m' s' Hp.
  - simplify_eq. lia.
  - bind_in Hp as [[e1 m1] s1]. bind_in Hp as [[rest m2] s2]. simplify_eq.
    apply process_entry_sum in E. apply IH in E0. rewrite filter_cons.
    destruct (decide (eligible e = true)) as [Ht|Hf].
    + rewrite Ht in E. simpl. lia.
    + apply not_true_is_false in Hf. rewrite Hf in E. lia.
Qed.

(** X7: when the run ends with its report, the two counters of the report
    add up to the number of records of the input array that have a truthy
    [character] and a [meaning] that is not null. *)
Theorem report_counts_every_eligible_record (fs : filesystem)
    (fields : list (pystr * json)) (entries : list json) (m s : nat) :
  content fs KANJI_INPUT_FILE = Parsed (JObj fields) ->
  dict_get fields (str "kanji") = Some (JArr entries) ->
  report (process_kanji_file fs) = Some (m, s) ->
  (m + s = length (filter (fun e => eligible e = true) entries))%nat.
Proof.
  intros Hin Hk. unfold process_kanji_file.
  destruct (load_dictionary fs) as [code|hvd]; [done |]. rewrite Hin.
  destruct (enrich hvd (JObj fields)) as [[[data' m1] s1]|e] eqn:He; [|done].
  destruct (writable fs OUTPUT_FILE); [|done]. simpl. intros [= -> ->].
  unfold enrich in He. simpl in He. rewrite Hk in He. simpl in He.
  bind_in He as [[entries' m'] s']. simplify_eq.
  by apply process_entries_sum in E.
Qed.

Lemma process_entry_miss hvd kanji_entry m s :
  misses hvd kanji_entry ->
  process_entry hvd kanji_entry m s
  = Ok (kanji_entry, m, if eligible kanji_entry then S s else s).
Proof.
  intros (fields & -> & Hmiss). unfold process_entry, eligible. simpl.
  destruct (dict_get fields (str "character")) as [character|]; simpl; [|done].
  destruct (dict_get fields (str "meaning")) as [meaning|]; simpl;
    [|by rewrite andb_false_r].
  destruct (truthy character) eqn:Ht; simpl; [|done].
  destruct (is_none meaning); simpl; [done |].
  destruct (Hmiss character eq_refl Ht) as (key & Hkey & Hnone).
  unfold get_han_viet_reading. rewrite Hkey. simpl. by rewrite Hnone.
Qed.

Lemma process_entries_miss hvd entries m s :
  Forall (misses hvd) entries ->
  process_entries hvd entries m s
  = Ok (entries, m,
        (s + length (filter (fun e => eligible e = true) entries))%nat).
Proof.
  intros Hall. revert s.
  induction Hall as [|e entries He _ IH]; intros s; simpl.
  - by rewrite Nat.add_0_r.
  - rewrite (process_entry_miss _ _ _ _ He). simpl. rewrite IH. simpl.
    rewrite filter_cons. destruct (decide (eligible e = true)) as [Ht|Hf].
    + rewrite Ht. simpl. do 3 f_equal. lia.
    + apply not_true_is_false in Hf. by rewrite Hf.
Qed.

(** X8: when the mapping has no list for the character of any record, the
    document is written back as it was read, nothing is counted as
    modified, and every eligible record is counted as skipped, whatever
    the type of its [meaning]. *)
Theorem unknown_characters_change_nothing (fs : filesystem) hvd
    (fields : list (pystr * json)) (entries : list json) :
  load_dictionary fs = inr hvd ->
  content fs KANJI_INPUT_FILE = Parsed (JObj fields) ->
  dict_get fields (str "kanji") = Some (JArr entries) ->
  Forall (misses hvd) entries ->
  writable fs OUTPUT_FILE = true ->
  process_kanji_file fs
  = {| opened := [YOMICHAN_DICTIONARY_FILE; KANJI_INPUT_FILE];
       written := [(OUTPUT_FILE, JObj fields)];
       ended := Returned;
       report :=
         Some (0%nat, length (filter (fun e => eligible e = true) entries)) |}.
Proof.
  intros Hd Hin Hk Hall Hw. unfold process_kanji_file. rewrite Hd, Hin.
  unfold enrich. simpl. rewrite Hk. simpl.
  rewrite (process_entries_miss _ _ _ _ Hall). simpl.
  by rewrite (dict_set_same _ _ _ Hk), Hw.
Qed.

Lemma process_entries_raises hvd (before after : list json) bad e m s :
  Forall (fun entry => kanji_record entry = true) before ->
  (forall m' s', process_entry hvd bad m' s' = Raise e) ->
  process_entries hvd (before ++ bad :: after) m s = Raise e.
Proof.
  intros Hall Hbad. revert m s.
  induction Hall as [|entry before He _ IH]; intros m s; simpl.
  - by rewrite Hbad.
  - destruct (process_entry_counters hvd entry m s He)
      as (e1 & m1 & s1 & -> & _).
    simpl. by rewrite IH.
Qed.

(** X9: a record whose character has a reading and whose [meaning] is
    neither null nor a string stops the run with an [AttributeError] that
    nothing catches: no output file is written, not even for the records
    before it. *)
Theorem non_string_meaning_aborts_the_run (fs : filesystem) hvd
    (fields bad : list (pystr * json)) (before after : list json)
    (character meaning : json) (sv : pystr) :
  load_dictionary fs = inr hvd ->
  content fs KANJI_INPUT_FILE = Parsed (JObj fields) ->
  dict_get fields (str "kanji") = Some (JArr (before ++ JObj bad :: after)) ->
  Forall (fun entry => kanji_record entry = true) before ->
  dict_get bad (str "character") = Some character ->
  truthy character = true ->
  get_han_viet_reading character hvd = Ok (Some sv) -> sv <> [] ->
  dict_get bad (str "meaning") = Some meaning ->
  is_none meaning = false -> (forall text, meaning <> JStr text) ->
  process_kanji_file fs
  = {| opened := [YOMICHAN_DICTIONARY_FILE; KANJI_INPUT_FILE];
       written := [];
       ended := Uncaught AttributeError;
       report := None |}.
Proof.
  intros Hd Hin Hk Hall Hc Ht Hsv Hne Hm Hnone Hstr.
  unfold process_kanji_file. rewrite Hd, Hin.
  unfold enrich. simpl. rewrite Hk. simpl.
  rewrite (process_entries_raises hvd before after (JObj bad) AttributeError);
    [done | done |].
  intros m' s'. unfold process_entry. simpl. rewrite Hc, Hm. simpl.
  rewrite Ht, Hnone. simpl. rewrite Hsv. simpl.
  destruct sv as [|c sv]; [done |].
  destruct meaning; simpl; try done. by destruct (Hstr s).
Qed.

Lemma process_entry_keeps_fields hvd kanji_entry m s kanji_entry' m' s' :
  process_entry hvd kanji_entry m s = Ok (kanji_entry', m', s') ->
  forall (k : pystr) (dflt : json), k <> str "meaning" ->
    py_get kanji_entry' k dflt = py_get kanji_entry k dflt.
Proof.
  unfold process_entry. intros Hp k dflt Hk.
  bind_in Hp as character. bind_in Hp as current_meaning.
  destruct (truthy character && negb (is_none current_meaning));
    [|by simplify_eq].
  bind_in Hp as [[|c sv]|]; try (by simplify_eq).
  bind_in Hp as stripped.
  destruct kanji_entry as [| | | | |fields]; try done.
  destruct current_meaning as [| | |meaning| |]; try done.
  simplify_eq. simpl. by rewrite dict_get_set_ne.
Qed.

(** X10: the enricher leaves every field of a record other than [meaning]
    as it was, and so the key under which the splitter files a record,
    [kanji.get('category', '').lower()], is the same after the enricher's
    loop as before it, record by record. *)
Theorem enrichment_keeps_the_level hvd (entries entries' : list json)
    (m s m' s' : nat) :
  process_entries hvd entries m s = Ok (entries', m', s') ->
  SplitKanji.category_key <$> entries' = SplitKanji.category_key <$> entries /\
  forall (k : pystr) (dflt : json), k <> str "meaning" ->
    (fun e => py_get e k dflt) <$> entries'
    = (fun e => py_get e k dflt) <$> entries.
Proof.
  revert m s entries' m' s'.
  induction entries as [|e entries IH]; simpl; intros m s entries' m' s' Hp.
  - by simplify_eq.
  - bind_in Hp as [[e1 m1] s1]. bind_in Hp as [[rest m2] s2]. simplify_eq.
    destruct (IH _ _ _ _ _ E0) as [IHc IHk].
    pose proof (process_entry_keeps_fields _ _ _ _ _ _ _ E) as Hkeep.
    split.
    + rewrite !fmap_cons. f_equal; [|exact IHc].
      unfold SplitKanji.category_key. rewrite Hkeep; [done |]. by vm_compute.
    + intros k dflt Hk. rewrite !fmap_cons.
      by rewrite (IHk k dflt Hk), (Hkeep k dflt Hk).
Qed.

Lemma lstrip_blank (t : pystr) :
  Forall (fun c => is_space c = true) (lstrip t)
  <-> Forall (fun c => is_space c = true) t.
Proof.
  induction t as [|c t IH]; simpl; [done |].
  destruct (is_space c) eqn:E; [|done].
  rewrite IH. split; [by constructor | by inversion 1].
Qed.

Lemma lstrip_nil (t : pystr) :
  lstrip t = [] <-> Forall (fun c => is_space c = true) t.
Proof.
  induction t as [|c t IH]; simpl; [done |].
  destruct (is_space c) eqn:E.
  - rewrite IH. split; [by constructor | by inversion 1].
  - split; [done |]. inversion 1; congruence.
Qed.

(** A string that [strip] empties holds white space only. *)
Lemma strip_nil (t : pystr) :
  strip t = [] <-> Forall (fun c => is_space c = true) t.
Proof.
  unfold strip, rstrip. rewrite <- (lstrip_blank t).
  rewrite <- (Forall_reverse _ (lstrip t)), <- lstrip_nil.
  split; [|by intros ->].
  intros Hr. apply (f_equal reverse) in Hr. by rewrite reverse_involutive in Hr.
Qed.

Lemma process_entry_hit hvd fields character meaning sv m s :
  dict_get fields (str "character") = Some character ->
  truthy character = true ->
  dict_get fields (str "meaning") = Some (JStr meaning) ->
  strip meaning <> [] ->
  get_han_viet_reading character hvd = Ok (Some sv) -> sv <> [] ->
  process_entry hvd (JObj fields) m s
  = Ok (JObj (dict_set fields (str "meaning")
                (JStr (sv ++ str ", " ++ meaning))), S m, s).
Proof.
  intros Hc Ht Hm Hs Hsv Hne. unfold process_entry. simpl.
  rewrite Hc, Hm. simpl. rewrite Ht. simpl. rewrite Hsv. simpl.
  destruct sv as [|c sv]; [done |]. by destruct (strip meaning).
Qed.

(** X11: for a record with a reading and a meaning that is not blank,
    every further pass of the enricher over its own output prepends the
    reading and the separator once more: after [n] passes the meaning
    carries [n] copies of them, and is longer by [n] times the length of
    the reading plus 2. *)
Theorem every_pass_prepends_the_reading hvd (fields : list (pystr * json))
    (character : json) (meaning sv : pystr) (n : nat) :
  dict_get fields (str "character") = Some character ->
  truthy character = true ->
  dict_get fields (str "meaning") = Some (JStr meaning) ->
  strip meaning <> [] ->
  get_han_viet_reading character hvd = Ok (Some sv) -> sv <> [] ->
  rerun hvd n (JObj fields)
  = Ok (JObj (dict_set fields (str "meaning")
                (JStr (Nat.iter n (fun text => sv ++ str ", " ++ text) meaning))))
  /\ (length (Nat.iter n (fun text => sv ++ str ", " ++ text) meaning)
      = n * (length sv + 2) + length meaning)%nat.
Proof.
  intros Hc Ht Hm Hs Hsv Hne. split.
  - revert fields meaning Hc Hm Hs. induction n as [|n IH];
      intros fields meaning Hc Hm Hs.
    + simpl. by rewrite (dict_set_same _ _ _ Hm).
    + cbn [rerun]. rewrite (process_entry_hit _ _ _ _ _ 0 0 Hc Ht Hm Hs Hsv Hne).
      unfold mbind, exc_bind. cbv beta iota.
      rewrite (IH (dict_set fields (str "meaning")
                     (JStr (sv ++ str ", " ++ meaning)))
                  (sv ++ str ", " ++ meaning)).
      * by rewrite dict_set_set, Nat.iter_succ_r.
      * rewrite dict_get_set_ne; [done | by vm_compute].
      * by rewrite dict_get_set.
      * rewrite strip_nil. intros Hall. apply Hs, strip_nil.
        by apply Forall_app in Hall as [_ [_ Hall]%Forall_app].
  - induction n as [|n IH]; [done |].
    rewrite Nat.iter_succ, !length_app, IH.
    change (length (str ", ")) with 2%nat. lia.
Qed.

End enricher_properties.

(** ** The order of a set does not show *)

Section set_order.
Variables R1 R2 : Runtime.
Hypothesis same_upper : forall c, @to_upper_full R1 c = @to_upper_full R2 c.

Lemma list_of_set_Permutation (l : list pystr) :
  @list_of_set R1 l ≡ₚ @list_of_set R2 l.
Proof.
  apply NoDup_Permutation; try apply list_of_set_NoDup.
  intros x. by rewrite !list_of_set_elem.
Qed.

Lemma stores_Permutation (entry : json) :
  match @stores R1 entry, @stores R2 entry with
  | Ok None, Ok None => True
  | Ok (Some (k1, r1)), Ok (Some (k2, r2)) => k1 = k2 /\ r1 ≡ₚ r2
  | Raise e1, Raise e2 => True
  | _, _ => False
  end.
Proof.
  unfold stores, entry_readings.
  destruct (py_len entry) as [n|]; simpl; [|done].
  destruct (n <? 2)%nat; simpl; [done |].
  destruct (py_index entry 0) as [character|]; simpl; [|done].
  destruct (py_index entry 1) as [definitions|]; simpl; [|done].
  destruct (py_iter definitions) as [defs|]; simpl; [|done].
  destruct (for_each add_reading [] defs) as [readings|]; simpl; [|done].
  pose proof (list_of_set_Permutation readings) as Hp.
  destruct (@list_of_set R1 readings) as [|a l1],
           (@list_of_set R2 readings) as [|b l2]; simpl; try done.
  - by apply Permutation_nil_cons in Hp.
  - symmetry in Hp. by apply Permutation_nil_cons in Hp.
  - by destruct (hash_key character).
Qed.

Lemma for_each_add_entry_Permutation (entries : list json)
    (d1 d2 : gmap pykey (list pystr)) :
  same_readings d1 d2 ->
  match for_each (@add_entry R1) d1 entries,
        for_each (@add_entry R2) d2 entries with
  | Ok d1', Ok d2' => same_readings d1' d2'
  | Raise _, Raise _ => True
  | _, _ => False
  end.
Proof.
  revert d1 d2. induction entries as [|entry entries IH]; intros d1 d2 Hd;
    simpl; [done |].
  rewrite !add_entry_stores. pose proof (stores_Permutation entry) as Hs.
  destruct (@stores R1 entry) as [[[k1 r1]|]|], (@stores R2 entry) as [[[k2 r2]|]|];
    simpl; try done.
  - destruct Hs as [<- Hp]. apply IH. intros key.
    destruct (decide (k1 = key)) as [->|Hne].
    + rewrite !lookup_insert_eq. by constructor.
    + rewrite !lookup_insert_ne by done. apply Hd.
  - by apply IH.
Qed.

Lemma upper_same (text : pystr) : @upper R1 text = @upper R2 text.
Proof. unfold upper. by apply list_bind_ext. Qed.

Lemma get_han_viet_reading_same (character : json)
    (d1 d2 : gmap pykey (list pystr)) :
  same_readings d1 d2 ->
  @get_han_viet_reading R1 character d1 = @get_han_viet_reading R2 character d2.
Proof.
  intros Hd. unfold get_han_viet_reading.
  destruct (hash_key character) as [key|]; simpl; [|done].
  destruct (Hd key) as [r1 r2 Hp|]; [|done].
  rewrite (sorted_order_irrelevant _ _ Hp).
  rewrite (list_fmap_ext (@upper R1) (@upper R2) (sorted r2))
    by (intros ???; apply upper_same).
  destruct r1 as [|a r1], r2 as [|b r2]; try done.
  - by apply Permutation_nil_cons in Hp.
  - symmetry in Hp. by apply Permutation_nil_cons in Hp.
Qed.

Lemma process_entry_same (d1 d2 : gmap pykey (list pystr)) kanji_entry m s :
  same_readings d1 d2 ->
  @process_entry R1 d1 kanji_entry m s = @process_entry R2 d2 kanji_entry m s.
Proof.
  intros Hd. unfold process_entry.
  destruct (py_get kanji_entry (str "character") JNull) as [character|];
    simpl; [|done].
  destruct (py_get kanji_entry (str "meaning") JNull) as [meaning|];
    simpl; [|done].
  destruct (truthy character && negb (is_none meaning)); [|done].
  by rewrite (get_han_viet_reading_same character d1 d2 Hd).
Qed.

Lemma process_entries_same (d1 d2 : gmap pykey (list pystr)) entries m s :
  same_readings d1 d2 ->
  @process_entries R1 d1 entries m s = @process_entries R2 d2 entries m s.
Proof.
  intros Hd. revert m s. induction entries as [|e entries IH]; intros m s;
    simpl; [done |].
  rewrite (process_entry_same d1 d2 e m s Hd).
  destruct (@process_entry R2 d2 e m s) as [[[e' m'] s']|]; simpl; [|done].
  by rewrite IH.
Qed.

(** X12: a run of the enricher does not depend on the order in which
    [list(set(readings))] yields the readings: two interpreters with the
    same upper-case mapping open, write and report the same, whatever
    their orders. *)
Theorem set_order_does_not_show (fs : filesystem) :
  @process_kanji_file R1 fs = @process_kanji_file R2 fs.
Proof.
  unfold process_kanji_file, load_dictionary, preprocess.
  destruct (content fs YOMICHAN_DICTIONARY_FILE) as [| | |data]; try done.
  destruct (py_iter data) as [entries|]; simpl; [|done].
  assert (same_readings ∅ ∅) as Hempty.
  { intros key. rewrite lookup_empty. constructor. }
  pose proof (for_each_add_entry_Permutation entries ∅ ∅ Hempty) as Hd.
  destruct (for_each (@add_entry R1) ∅ entries) as [d1|],
           (for_each (@add_entry R2) ∅ entries) as [d2|]; try done.
  destruct (content fs KANJI_INPUT_FILE) as [| | |input]; try done.
  unfold enrich.
  destruct (py_get input (str "kanji") (JArr [])) as [kanji_list|]; simpl;
    [|done].
  destruct (py_len kanji_list); simpl; [|done].
  destruct (py_iter kanji_list) as [kanjis|]; simpl; [|done].
  by rewrite (process_entries_same d1 d2 kanjis 0 0 Hd).
Qed.

End set_order.

Lemma set_order_does_not_show_witness :
  let fs :=
    files (JArr [JArr [JStr water;
                       JArr [JArr [JStr (str "b")]; JArr [JStr (str "a")]]]])
          (JObj [(str "kanji", JArr [record water (str "water")])]) in
  @load_dictionary basic_latin fs <> @load_dictionary reversed_sets fs /\
  @process_kanji_file basic_latin fs = @process_kanji_file reversed_sets fs.
Proof.
  intros fs. split; [by vm_compute |].
  apply (set_order_does_not_show basic_latin reversed_sets).
  intros c. reflexivity.
Defined.

Lemma report_counts_every_eligible_record_witness :
  let fs :=
    files (JArr [JArr [JStr water; JArr [JArr [JStr THUY]]]])
          (JObj [(str "kanji",
                  JArr [record water (str "water"); record dragon (str "dragon");
                        JObj [(str "character", JStr fire)]])]) in
  report (process_kanji_file fs) = Some (1%nat, 1%nat) /\ (1 + 1 = 2)%nat.
Proof.
  intros fs.
  assert (report (process_kanji_file fs) = Some (1%nat, 1%nat)) as Hr
    by reflexivity.
  split; [exact Hr |].
  exact (report_counts_every_eligible_record fs _ _ 1 1 eq_refl eq_refl Hr).
Defined.

Lemma unknown_characters_change_nothing_witness :
  let fields :=
    [(str "title", JStr (str "N5"));
     (str "kanji", JArr [record dragon (str "dragon");
                         JObj [(str "character", JStr fire);
                               (str "meaning", JInt 7)];
                         JObj [(str "meaning", JStr (str "none"))]])] in
  let fs :=
    files (JArr [JArr [JStr water; JArr [JArr [JStr THUY]]]]) (JObj fields) in
  process_kanji_file fs
  = {| opened := [YOMICHAN_DICTIONARY_FILE; KANJI_INPUT_FILE];
       written := [(OUTPUT_FILE, JObj fields)];
       ended := Returned;
       report := Some (0%nat, 2%nat) |}.
Proof.
  intros fields fs.
  apply (unknown_characters_change_nothing fs {[ KStr water := [THUY] ]} fields
           [record dragon (str "dragon");
            JObj [(str "character", JStr fire); (str "meaning", JInt 7)];
            JObj [(str "meaning", JStr (str "none"))]]);
    try reflexivity.
  repeat constructor; eexists; (split; [reflexivity |]);
    intros character [= <-] _; eexists; (split; reflexivity).
Defined.

Lemma non_string_meaning_aborts_the_run_witness :
  let fields :=
    [(str "kanji",
      JArr ([record dragon (str "dragon")]
            ++ JObj [(str "character", JStr water); (str "meaning", JInt 5)]
            :: [record water (str "water")]))] in
  let fs :=
    files (JArr [JArr [JStr water; JArr [JArr [JStr THUY]]]]) (JObj fields) in
  process_kanji_file fs
  = {| opened := [YOMICHAN_DICTIONARY_FILE; KANJI_INPUT_FILE];
       written := [];
       ended := Uncaught AttributeError;
       report := None |}.
Proof.
  intros fields fs.
  apply (non_string_meaning_aborts_the_run fs {[ KStr water := [THUY] ]} fields
           [(str "character", JStr water); (str "meaning", JInt 5)]
           [record dragon (str "dragon")] [record water (str "water")]
           (JStr water) (JInt 5) THUY);
    try reflexivity; try discriminate.
  repeat constructor.
Defined.

Lemma enrichment_keeps_the_level_witness :
  let hvd : gmap pykey (list pystr) := {[ KStr water := [THUY] ]} in
  let entry meaning :=
    JObj [(str "character", JStr water); (str "meaning", JStr meaning);
          (str "category", JStr (str "JLPTN5"))] in
  process_entries hvd [entry (str "water")] 0 0
  = Ok ([entry (THUY ++ str ", water")], 1%nat, 0%nat) /\
  SplitKanji.category_key <$> [entry (THUY ++ str ", water")]
  = SplitKanji.category_key <$> [entry (str "water")].
Proof.
  intros hvd entry.
  assert (process_entries hvd [entry (str "water")] 0 0
          = Ok ([entry (THUY ++ str ", water")], 1%nat, 0%nat)) as Hp
    by reflexivity.
  split; [exact Hp |].
  exact (proj1 (enrichment_keeps_the_level hvd _ _ 0 0 1 0 Hp)).
Defined.

Lemma every_pass_prepends_the_reading_witness :
  let hvd : gmap pykey (list pystr) := {[ KStr water := [THUY] ]} in
  let fields := [(str "character", JStr water); (str "meaning", JStr (str "water"))] in
  rerun hvd 3 (JObj fields)
  = Ok (JObj (dict_set fields (str "meaning")
                (JStr (Nat.iter 3 (fun text => THUY ++ str ", " ++ text)
                         (str "water")))))
  /\ (length (Nat.iter 3 (fun text => THUY ++ str ", " ++ text) (str "water"))
      = 3 * (length THUY + 2) + length (str "water"))%nat.
Proof.
  intros hvd fields.
  apply (every_pass_prepends_the_reading hvd fields (JStr water) (str "water")
           THUY 3); try reflexivity; discriminate.
Defined.

(** ** More on the splitter *)

Import SplitKanji.

Section splitter_properties.
Context `{Runtime}.
Implicit Types (jlpt_groups : gmap pystr (list json)) (kanji : json).

Lemma split_run (fs : filesystem) (input_filename : string)
    (fields : list (pystr * json)) (kanji_list : list json) :
  content fs input_filename = Parsed (JObj fields) ->
  dict_get fields (str "kanji") = Some (JArr kanji_list) ->
  kanji_list <> [] ->
  Forall (fun kanji => categorised kanji = true) kanji_list ->
  split_kanji_by_jlpt_level fs input_filename
  = {| opened := [input_filename];
       written :=
         level_file kanji_list
           <$> filter (fun output => writable fs output.2 = true) output_filenames;
       ended := Returned |}.
Proof.
  intros Hin Hk Hne Hall.
  unfold split_kanji_by_jlpt_level. rewrite Hin. simpl. rewrite Hk. simpl.
  destruct kanji_list as [|kanji kanji_list]; [done |]. simpl negb. cbv iota.
  unfold group_by_category. simpl py_iter.
  destruct (for_each_add_kanji_lookup (kanji :: kanji_list)
              jlpt_groups_init Hall) as (groups & Hg & Hlook).
  unfold mbind at 1, exc_bind at 1. rewrite Hg. f_equal.
  unfold write_groups, output_filenames.
  rewrite !filter_cons, filter_nil. cbn [omap list_omap snd fst].
  destruct (writable fs "kanji-jlpt-n5.json"),
           (writable fs "kanji-jlpt-n4.json"),
           (writable fs "kanji-jlpt-n3.json"),
           (writable fs "kanji-jlpt-n2.json"),
           (writable fs "kanji-jlpt-n1.json");
    rewrite ?Hlook; reflexivity.
Qed.

(** X13: an output file that cannot be written is passed over and the
    others are written all the same: the splitter writes, in the order
    jlptn5 to jlptn1, the files of the levels whose file can be written,
    each with the records of its level in input order. *)
Theorem unwritable_level_is_passed_over (fs : filesystem)
    (input_filename : string) (fields : list (pystr * json))
    (kanji_list : list json) :
  content fs input_filename = Parsed (JObj fields) ->
  dict_get fields (str "kanji") = Some (JArr kanji_list) ->
  kanji_list <> [] ->
  Forall (fun kanji => categorised kanji = true) kanji_list ->
  split_kanji_by_jlpt_level fs input_filename
  = {| opened := [input_filename];
       written :=
         level_file kanji_list
           <$> filter (fun output => writable fs output.2 = true) output_filenames;
       ended := Returned |}.
Proof. apply split_run. Qed.

Lemma output_key_names (o1 o2 : pystr * string) :
  o1 ∈ output_filenames -> o2 ∈ output_filenames -> o1.1 = o2.1 -> o1 = o2.
Proof.
  unfold output_filenames. rewrite !elem_of_cons, !elem_of_nil.
  intros [->|[->|[->|[->|[->|[]]]]]] [->|[->|[->|[->|[->|[]]]]]];
    try done; by vm_compute.
Qed.

(** X14: no record is filed twice: a record that is in the array of one
    output file is in the array of no output file of another name. *)
Theorem record_is_in_one_file_only (fs : filesystem) (input_filename : string)
    (fields : list (pystr * json)) (kanji_list : list json)
    (name1 name2 : string) (records1 records2 : list json) kanji :
  content fs input_filename = Parsed (JObj fields) ->
  dict_get fields (str "kanji") = Some (JArr kanji_list) ->
  kanji_list <> [] ->
  Forall (fun kanji => categorised kanji = true) kanji_list ->
  (name1, JObj [(str "kanji", JArr records1)])
    ∈ written (split_kanji_by_jlpt_level fs input_filename) ->
  (name2, JObj [(str "kanji", JArr records2)])
    ∈ written (split_kanji_by_jlpt_level fs input_filename) ->
  kanji ∈ records1 -> kanji ∈ records2 ->
  name1 = name2.
Proof.
  intros Hin Hk Hne Hall. rewrite (split_run _ _ _ _ Hin Hk Hne Hall).
  cbn [written].
  intros ([key1 n1] & Hf1 & [_ Ho1]%list_elem_of_filter)%list_elem_of_fmap.
  intros ([key2 n2] & Hf2 & [_ Ho2]%list_elem_of_filter)%list_elem_of_fmap.
  unfold level_file in Hf1, Hf2. simpl in Hf1, Hf2.
  injection Hf1 as -> ->. injection Hf2 as -> ->.
  intros [Hm1 _]%list_elem_of_filter [Hm2 _]%list_elem_of_filter.
  rewrite matches_category_key in Hm1, Hm2.
  destruct (category_key kanji); [|done].
  unfold str_eqb in *. apply bool_decide_eq_true in Hm1, Hm2. subst.
  by injection (output_key_names _ _ Ho1 Ho2 eq_refl).
Qed.

Lemma for_each_add_kanji_raises (before after : list json) bad e jlpt_groups :
  Forall (fun kanji => categorised kanji = true) before ->
  category_key bad = Raise e ->
  for_each add_kanji jlpt_groups (before ++ bad :: after) = Raise e.
Proof.
  intros Hall Hbad. rewrite for_each_app.
  destruct (for_each_add_kanji_lookup before jlpt_groups Hall) as (g & -> & _).
  simpl. unfold add_kanji. by rewrite Hbad.
Qed.

(** X15: a record on which [kanji.get('category', '').lower()] raises (a
    category that is null or a number, a record that is not an object)
    stops the run with that exception, which nothing catches, before any
    file is written. *)
Theorem bad_category_aborts_the_split (fs : filesystem)
    (input_filename : string) (fields : list (pystr * json))
    (before after : list json) bad e :
  content fs input_filename = Parsed (JObj fields) ->
  dict_get fields (str "kanji") = Some (JArr (before ++ bad :: after)) ->
  Forall (fun kanji => categorised kanji = true) before ->
  category_key bad = Raise e ->
  split_kanji_by_jlpt_level fs input_filename
  = {| opened := [input_filename]; written := []; ended := Uncaught e |}.
Proof.
  intros Hin Hk Hall Hbad.
  unfold split_kanji_by_jlpt_level. rewrite Hin.
  change (py_get (JObj fields) (str "kanji") (JArr []))
    with (Ok (default (JArr []) (dict_get fields (str "kanji")))).
  rewrite Hk. cbv beta iota delta [default from_option id].
  replace (negb (truthy (JArr (before ++ bad :: after)))) with false
    by (by destruct before).
  unfold group_by_category, py_iter, mbind at 1, exc_bind at 1. cbv iota.
  by rewrite (for_each_add_kanji_raises _ _ _ _ _ Hall Hbad).
Qed.

End splitter_properties.

Lemma unwritable_level_is_passed_over_witness :
  let kanji_list :=
    [level water (str "JLPTN5"); level fire (str "jlptn4");
     level dragon (str "JlptN4")] in
  let fs :=
    read_only "kanji-jlpt-n4.json"
      (files JNull (JObj [(str "kanji", JArr kanji_list)])) in
  written (split_kanji_by_jlpt_level fs "kanji-org.json")
  = [("kanji-jlpt-n5.json"%string,
      JObj [(str "kanji", JArr [level water (str "JLPTN5")])]);
     ("kanji-jlpt-n3.json"%string, JObj [(str "kanji", JArr [])]);
     ("kanji-jlpt-n2.json"%string, JObj [(str "kanji", JArr [])]);
     ("kanji-jlpt-n1.json"%string, JObj [(str "kanji", JArr [])])].
Proof.
  intros kanji_list fs.
  rewrite (unwritable_level_is_passed_over fs "kanji-org.json"
             [(str "kanji", JArr kanji_list)] kanji_list
             eq_refl eq_refl ltac:(discriminate) ltac:(repeat constructor)).
  reflexivity.
Defined.

Lemma record_is_in_one_file_only_witness :
  let kanji_list :=
    [level water (str "JLPTN5"); level fire (str "jlptn3")] in
  let fs := files JNull (JObj [(str "kanji", JArr kanji_list)]) in
  ("kanji-jlpt-n5.json"%string,
   JObj [(str "kanji", JArr [level water (str "JLPTN5")])])
    ∈ written (split_kanji_by_jlpt_level fs "kanji-org.json") /\
  "kanji-jlpt-n5.json"%string = "kanji-jlpt-n5.json"%string.
Proof.
  intros kanji_list fs.
  assert (("kanji-jlpt-n5.json"%string,
           JObj [(str "kanji", JArr [level water (str "JLPTN5")])])
            ∈ written (split_kanji_by_jlpt_level fs "kanji-org.json")) as Hfile
    by (vm_compute; left).
  split; [exact Hfile |].
  apply (record_is_in_one_file_only fs "kanji-org.json"
           [(str "kanji", JArr kanji_list)] kanji_list
           "kanji-jlpt-n5.json" "kanji-jlpt-n5.json"
           [level water (str "JLPTN5")] [level water (str "JLPTN5")]
           (level water (str "JLPTN5"))
           eq_refl eq_refl ltac:(discriminate) ltac:(repeat constructor)
           Hfile Hfile); left.
Defined.

Lemma bad_category_aborts_the_split_witness :
  let bad := JObj [(str "character", JStr fire); (str "category", JNull)] in
  let fs :=
    files JNull
      (JObj [(str "kanji",
              JArr ([level water (str "JLPTN5")]
                    ++ bad :: [level dragon (str "jlptn3")]))]) in
  category_key bad = Raise AttributeError /\
  split_kanji_by_jlpt_level fs "kanji-org.json"
  = {| opened := ["kanji-org.json"%string]; written := [];
       ended := Uncaught AttributeError |}.
Proof.
  intros bad fs. split; [reflexivity |].
  apply (bad_category_aborts_the_split fs "kanji-org.json" _
           [level water (str "JLPTN5")] [level dragon (str "jlptn3")] bad
           AttributeError eq_refl eq_refl);
    [repeat constructor | reflexivity].
Defined.

Import AutoSvLookup.

(** X16: a [kanji] key that is present with a value that has no length
    (null, a boolean, a number) is not taken for an empty array, as a
    missing key is: [len(kanji_list)] raises a [TypeError] that nothing
    catches, and no output file is written. *)
Theorem unsized_kanji_value_aborts_the_run `{Runtime} (fs : filesystem) hvd
    (fields : list (pystr * json)) (kanji_list : json) :
  load_dictionary fs = inr hvd ->
  content fs KANJI_INPUT_FILE = Parsed (JObj fields) ->
  dict_get fields (str "kanji") = Some kanji_list ->
  kanji_list = JNull \/ (exists b, kanji_list = JBool b)
    \/ (exists z, kanji_list = JInt z) ->
  process_kanji_file fs
  = {| opened := [YOMICHAN_DICTIONARY_FILE; KANJI_INPUT_FILE];
       written := [];
       ended := Uncaught TypeError;
       report := None |}.
Proof.
  intros Hd Hin Hk Hshape. unfold process_kanji_file. rewrite Hd, Hin.
  unfold enrich. simpl. rewrite Hk.
  by destruct Hshape as [-> | [[b ->] | [z ->]]].
Qed.

Lemma unsized_kanji_value_aborts_the_run_witness :
  process_kanji_file
    (files (JArr [JArr [JStr water; JArr [JArr [JStr THUY]]]])
           (JObj [(str "kanji", JNull)]))
  = {| opened := [YOMICHAN_DICTIONARY_FILE; KANJI_INPUT_FILE];
       written := [];
       ended := Uncaught TypeError;
       report := None |}.
Proof.
  apply (unsized_kanji_value_aborts_the_run _ {[ KStr water := [THUY] ]}
           [(str "kanji", JNull)] JNull); try reflexivity.
  left. reflexivity.
Defined.
